(** * A shallow embedding of [src/src/gameboard.js] (js-battleship)

    The JavaScript heap is modelled explicitly, because the code relies on
    object identity: a board cell *is* the ship's own [Space] object after
    [placeShip], the rows of [this.board] are shared mutable arrays, and the
    backup taken by [autoPlaceShips] ([{ ...this.board }]) copies only the
    outer container.

    - [Space] objects live in the store [spaces], addressed by [loc].
    - The row arrays live in the store [rows]; a row is a JS array, i.e. a
      map from integer keys to [Space] references together with its
      [length].
    - [this.board] holds the outer container: the array built by the
      constructor, or the plain object produced by the spread in
      [autoPlaceShips]; both map the keys 0..14 to row references.
    - [Math.random] is a stream [rnd] of draws; the state records how many
      draws have been consumed. *)

From Stdlib Require Import ZArith Lia.
From stdpp Require Import base gmap list.

Open Scope Z_scope.

Definition loc := nat.
Definition shipref := loc.

(** ** Space and Ship (the modules [./space] and [../ship]) *)

(** Modelled from the spec: the [Space] class ([./space], not in src/).
    A cell has an optional [parent] (the ship occupying it) and an [isHit]
    flag, initially false. *)
Record Space := mkSpace { parent : option shipref; isHit : bool }.

(** Modelled from the spec: [new Space()], an empty unhit cell. *)
Definition newSpace : Space := mkSpace None false.

(** Modelled from the spec: [Space.prototype.hit] marks the cell as hit. *)
Definition Space_hit (s : Space) : Space := mkSpace (parent s) true.

(** A ship object: its identity and its [hits] array of [Space] references. *)
Record Ship := mkShip { ship_id : shipref; hits : list loc }.

(** A JS array of references: its integer-keyed elements and its [length]. *)
Record JsArray := mkJsArray { props : gmap Z loc; length : Z }.

(** [arr[k] = v]: an array index at or beyond [length] grows the array. *)
Definition js_set (a : JsArray) (k : Z) (v : loc) : JsArray :=
  mkJsArray (<[k := v]> (props a))
    (if (0 <=? k) && (k <? 4294967295) && (length a <=? k) then k + 1
     else length a).

(** The value held by [this.board]. *)
Inductive BoardObj :=
| BArray (refs : list loc)    (* the array built by the constructor *)
| BObject (refs : list loc).  (* the plain object [{ ...array }] *)

Definition board_refs (b : BoardObj) : list loc :=
  match b with BArray rs | BObject rs => rs end.

(** [this.board[k]] for an integer [k]: both the array and its spread copy
    have exactly the keys 0 .. n-1; any other key reads [undefined]. *)
Definition board_at (b : BoardObj) (k : Z) : option loc :=
  if 0 <=? k then board_refs b !! Z.to_nat k else None.

Record State := mkState {
  board : BoardObj;
  rows : gmap loc JsArray;
  spaces : gmap loc Space;
  next_loc : loc;   (* allocator *)
  rng : N           (* number of [Math.random()] calls made so far *)
}.

Definition set_board (st : State) (b : BoardObj) : State :=
  mkState b (rows st) (spaces st) (next_loc st) (rng st).
Definition set_rows (st : State) (r : gmap loc JsArray) : State :=
  mkState (board st) r (spaces st) (next_loc st) (rng st).
Definition set_spaces (st : State) (s : gmap loc Space) : State :=
  mkState (board st) (rows st) s (next_loc st) (rng st).

Definition emptyArray : JsArray := mkJsArray ∅ 0.
Definition row_of (st : State) (rr : loc) : JsArray := default emptyArray (rows st !! rr).
Definition space_of (st : State) (l : loc) : Space := default newSpace (spaces st !! l).

(** ** Results and the state/exception monad *)

Inductive Exn := TypeError.

Inductive Res (A : Type) := Ok (a : A) | Throw (e : Exn).
Arguments Ok {A} a.
Arguments Throw {A} e.

Definition M (A : Type) := State -> Res (A * State).

Definition ret {A} (a : A) : M A := fun st => Ok (a, st).
Definition bindM {A B} (m : M A) (f : A -> M B) : M B :=
  fun st => match m st with Ok (a, st') => f a st' | Throw e => Throw e end.
Definition throw {A} (e : Exn) : M A := fun _ => Throw e.

Notation "'let*' x ':=' m 'in' k" := (bindM m (fun x => k))
  (at level 200, x name, right associativity).

(** Allocation of a fresh [Space] object. *)
Definition alloc (s : Space) : M loc :=
  fun st => Ok (next_loc st,
                mkState (board st) (rows st) (<[next_loc st := s]> (spaces st))
                        (S (next_loc st)) (rng st)).

(** Allocation of a fresh row array. *)
Definition alloc_row (a : JsArray) : M loc :=
  fun st => Ok (next_loc st,
                mkState (board st) (<[next_loc st := a]> (rows st)) (spaces st)
                        (S (next_loc st)) (rng st)).

(** [this.board[r][c] = v] *)
Definition write_cell (r c : Z) (v : loc) : M unit :=
  fun st =>
    match board_at (board st) r with
    | None => Throw TypeError
    | Some rr => Ok (tt, set_rows st (<[rr := js_set (row_of st rr) c v]> (rows st)))
    end.

(** ** Numeric coercions of JS *)

(** [b && n] used as a number: [n] when [b] holds, [false] (that is 0)
    otherwise. *)
Definition and_num (b : bool) (n : Z) : Z := if b then n else 0.

Record Position := mkPos { col : Z; row : Z; horizontal : bool }.

Definition ship_len (s : Ship) : Z := Z.of_nat (List.length (hits s)).

(** ** Constructor *)

(** [Array.from({ length: 15 }, () => new Space())] *)
Fixpoint fill_row (j : nat) (n : nat) (a : JsArray) : M JsArray :=
  match n with
  | O => ret a
  | S n' => let* l := alloc newSpace in fill_row (S j) n' (js_set a (Z.of_nat j) l)
  end.

Fixpoint build_rows (n : nat) : M (list loc) :=
  match n with
  | O => ret []
  | S n' =>
      let* a := fill_row 0 15 emptyArray in
      let* rr := alloc_row a in
      let* rs := build_rows n' in
      ret (rr :: rs)
  end.

(** [new Gameboard()] *)
Definition Gameboard_new : M unit :=
  let* rs := build_rows 15 in
  fun st => Ok (tt, set_board st (BArray rs)).

Definition init_state : State := mkState (BArray []) ∅ ∅ 0%nat 0%N.

Definition fresh_board : State :=
  match Gameboard_new init_state with Ok (_, st) => st | Throw _ => init_state end.

(** Modelled from the spec: [new Ship(length)] ([../ship], not in src/):
    a ship object holding [length] fresh unhit [Space]s whose [parent] is
    the ship. *)
Fixpoint alloc_segments (id : shipref) (n : nat) : M (list loc) :=
  match n with
  | O => ret []
  | S n' =>
      let* l := alloc (mkSpace (Some id) false) in
      let* ls := alloc_segments id n' in
      ret (l :: ls)
  end.

(** Allocation of an object whose fields the board never reads. *)
Definition alloc_object : M loc :=
  fun st => Ok (next_loc st,
                mkState (board st) (rows st) (spaces st) (S (next_loc st)) (rng st)).

Definition Ship_new (len : nat) : M Ship :=
  let* id := alloc_object in   (* the ship object itself *)
  let* hs := alloc_segments id len in
  ret (mkShip id hs).

(** ** [canPlace] *)

(** The value of the chain [board[r] (?.) [c] (?.) .parent]: [q1] marks an
    optional chaining after [board[r]], [q2] one after [[c]]. Reading a
    property of [undefined] without [?.] throws a [TypeError]; an [?.] on
    [undefined] short-circuits the rest of the chain to [undefined]. *)
Definition parent_chain (st : State) (q1 q2 : bool) (r c : Z) : Res (option shipref) :=
  match board_at (board st) r with
  | None => if q1 then Ok None else Throw TypeError
  | Some rr =>
      match props (row_of st rr) !! c with
      | None => if q2 then Ok None else Throw TypeError
      | Some l => Ok (parent (space_of st l))
      end
  end.

(** [if (e) return false; k] *)
Definition reject (e : Res (option shipref)) (k : Res bool) : Res bool :=
  match e with
  | Throw x => Throw x
  | Ok (Some _) => Ok false
  | Ok None => k
  end.

(** The body of [for (let offset of [-1, 1])]. *)
Definition check_offset (st : State) (cr cc : Z) (offset : Z) (k : Res bool) : Res bool :=
  reject (parent_chain st true false (cr + offset) cc)
 (reject (parent_chain st false true cr (cc + offset))
 (reject (parent_chain st true true (cr + offset) (cc + offset))
 (reject (parent_chain st true true (cr + offset) (cc - offset)) k))).

(** The loop [for (let i = 0; i < ship.hits.length; i++)], from index [i]. *)
Fixpoint canPlace_loop (st : State) (hz : bool) (r c : Z) (is : list nat) : Res bool :=
  match is with
  | [] => Ok true
  | i :: is' =>
      let currentRow := r + and_num (negb hz) (Z.of_nat i) in
      let currentCol := c + and_num hz (Z.of_nat i) in
      reject (parent_chain st false false currentRow currentCol)
        (check_offset st currentRow currentCol (-1)
          (check_offset st currentRow currentCol 1
            (canPlace_loop st hz r c is')))
  end.

Definition canPlace (st : State) (p : Position) (ship : Ship) : Res bool :=
  let maxRow := row p + and_num (negb (horizontal p)) (ship_len ship - 1) in
  let maxCol := col p + and_num (horizontal p) (ship_len ship - 1) in
  if (14 <? maxCol) || (14 <? maxRow) then Ok false
  else canPlace_loop st (horizontal p) (row p) (col p) (seq 0 (List.length (hits ship))).

(** ** [placeShip] *)

(** [ship.hits.forEach((space, i) => this.board[row + (!horizontal && i)]
    [col + (horizontal && i)] = space)], from index [i]. *)
Fixpoint placeShip_loop (hz : bool) (r c : Z) (i : nat) (hs : list loc) : M unit :=
  match hs with
  | [] => ret tt
  | space :: hs' =>
      let* _ := write_cell (r + and_num (negb hz) (Z.of_nat i))
                           (c + and_num hz (Z.of_nat i)) space in
      placeShip_loop hz r c (S i) hs'
  end.

Definition placeShip (p : Position) (ship : Ship) : M unit :=
  placeShip_loop (horizontal p) (row p) (col p) 0 (hits ship).

(** ** [Math.random] and [findValidPosition] *)

(** A random source: the [n]-th call of [Math.random()] returns
    [rnd n * 2^-53]; [rnd n] is meant to lie in [0, 2^53), which covers the
    generators of the JS engines (multiples of 2^-53 in [0, 1)). *)
Definition RandomSource := N -> Z.

Definition draw (rnd : RandomSource) : M Z :=
  fun st => Ok (rnd (rng st),
                mkState (board st) (rows st) (spaces st) (next_loc st) (N.succ (rng st))).

(** Rounding of a positive integer [n] to 53 significant bits, to nearest,
    ties to even (IEEE-754 binary64); the result is again an integer. *)
Definition round_shift (n e : Z) : Z :=
  let q := n / 2 ^ e in
  let rm := n mod 2 ^ e in
  let half := 2 ^ (e - 1) in
  let q' := if rm <? half then q
            else if half <? rm then q + 1
            else if Z.even q then q else q + 1 in
  q' * 2 ^ e.

Definition fl53 (n : Z) : Z :=
  if n <? 2 ^ 53 then n else round_shift n (Z.log2 n - 52).

(** [Math.floor(Math.random() * 15)] for the draw [k]: the product
    [15 k * 2^-53] is rounded to a double, then floored. *)
Definition floor15 (k : Z) : Z := fl53 (15 * k) / 2 ^ 53.

(** [Math.random() < 0.5] for the draw [k]. *)
Definition lt_half (k : Z) : bool := k <? 2 ^ 52.

(** [const maxIterations = 100000], written as a product: [Nat.mul]
    unfolds lazily, whereas a unary literal is expanded in full. *)
Definition maxIterations : nat := 100 * 1000.

(** The loop of [findValidPosition] with [n] iterations left. The object
    literal evaluates [col], [row], [horizontal] in this order. *)
Fixpoint findValidPosition_loop (rnd : RandomSource) (ship : Ship) (n : nat)
  : M (option Position) :=
  match n with
  | O => ret None
  | S n' =>
      let* kc := draw rnd in
      let* kr := draw rnd in
      let* kh := draw rnd in
      let position := mkPos (floor15 kc) (floor15 kr) (lt_half kh) in
      fun st =>
        match canPlace st position ship with
        | Throw e => Throw e
        | Ok true => Ok (Some position, st)
        | Ok false => findValidPosition_loop rnd ship n' st
        end
  end.

Definition findValidPosition (rnd : RandomSource) (ship : Ship) : M (option Position) :=
  findValidPosition_loop rnd ship maxIterations.

(** ** [autoPlaceShips] *)

(** [const backupBoard = { ...this.board }]: a new plain object holding the
    same row references. *)
Definition spread (b : BoardObj) : BoardObj := BObject (board_refs b).

Fixpoint autoPlaceShips_loop (rnd : RandomSource) (backupBoard : BoardObj)
  (ships : list Ship) : M bool :=
  match ships with
  | [] => ret true
  | ship :: ships' =>
      let* position := findValidPosition rnd ship in
      match position with
      | None => fun st => Ok (false, set_board st backupBoard)
      | Some p =>
          let* _ := placeShip p ship in
          autoPlaceShips_loop rnd backupBoard ships'
      end
  end.

Definition autoPlaceShips (rnd : RandomSource) (ships : list Ship) : M bool :=
  fun st => autoPlaceShips_loop rnd (spread (board st)) ships st.

(** ** [receiveAttack], [checkHit] *)

(** [this.board[row][col]], read without optional chaining. *)
Definition cell_ref (st : State) (c r : Z) : Res loc :=
  match board_at (board st) r with
  | None => Throw TypeError
  | Some rr =>
      match props (row_of st rr) !! c with
      | None => Throw TypeError
      | Some l => Ok l
      end
  end.

Definition receiveAttack (c r : Z) : M (option shipref) :=
  fun st =>
    match cell_ref st c r with
    | Throw e => Throw e
    | Ok l =>
        let st' := set_spaces st (<[l := Space_hit (space_of st l)]> (spaces st)) in
        match cell_ref st' c r with
        | Throw e => Throw e
        | Ok l' => Ok (parent (space_of st' l'), st')
        end
    end.

Definition checkHit (c r : Z) (st : State) : Res bool :=
  match cell_ref st c r with
  | Throw e => Throw e
  | Ok l => Ok (isHit (space_of st l))
  end.

(** ** [resetBoard] *)

(** [row.forEach((space, j) => this.board[i][j] = new Space())]: [forEach]
    visits the indices below the row's [length] that are present. *)
Fixpoint reset_row (i : Z) (row_arr : JsArray) (js : list nat) : M unit :=
  match js with
  | [] => ret tt
  | j :: js' =>
      match props row_arr !! Z.of_nat j with
      | None => reset_row i row_arr js'
      | Some _ =>
          let* l := alloc newSpace in
          let* _ := write_cell i (Z.of_nat j) l in
          reset_row i row_arr js'
      end
  end.

(** [this.board.forEach((row, i) => ...)], from index [i]. *)
Fixpoint reset_rows (i : nat) (rs : list loc) : M unit :=
  match rs with
  | [] => ret tt
  | rr :: rs' =>
      fun st =>
        let row_arr := row_of st rr in
        bindM (reset_row (Z.of_nat i) row_arr (seq 0 (Z.to_nat (length row_arr))))
              (fun _ => reset_rows (S i) rs') st
  end.

(** A plain object has no [forEach]: calling it throws a [TypeError]. *)
Definition resetBoard : M unit :=
  fun st =>
    match board st with
    | BArray rs => reset_rows 0 rs st
    | BObject _ => Throw TypeError
    end.

(** ** Running a computation on concrete inputs *)

Definition run {A} (m : M A) (st : State) : option (A * State) :=
  match m st with Ok r => Some r | Throw _ => None end.

(** ** Well-formed boards *)

(** A row as the constructor builds it: the keys 0..14, and length 15. *)
Definition row_ok (a : JsArray) : Prop :=
  length a = 15 /\ forall c, is_Some (props a !! c) <-> 0 <= c < 15.

(** [this.board] holds 15 distinct rows, each a 15-cell row. *)
Definition wf (st : State) : Prop :=
  List.length (board_refs (board st)) = 15%nat /\
  NoDup (board_refs (board st)) /\
  forall rr, rr ∈ board_refs (board st) -> row_ok (row_of st rr).

Definition in_grid (r c : Z) : Prop := 0 <= r < 15 /\ 0 <= c < 15.

(** The occupant of the grid cell at row [r], column [c] ([None] outside
    the grid or on an empty cell). *)
Definition occ (st : State) (r c : Z) : option shipref :=
  match board_at (board st) r with
  | None => None
  | Some rr =>
      match props (row_of st rr) !! c with
      | None => None
      | Some l => parent (space_of st l)
      end
  end.

(** The cell [i] of a placement, as [canPlace] and [placeShip] compute it. *)
Definition cell_row (p : Position) (i : nat) : Z := row p + and_num (negb (horizontal p)) (Z.of_nat i).
Definition cell_col (p : Position) (i : nat) : Z := col p + and_num (horizontal p) (Z.of_nat i).

(** The nine cells [canPlace] inspects around [(r, c)], in the code's order. *)
Definition inspected (st : State) (r c : Z) : list (option shipref) :=
  [occ st r c;
   occ st (r + -1) c; occ st r (c + -1); occ st (r + -1) (c + -1); occ st (r + -1) (c - -1);
   occ st (r + 1) c; occ st r (c + 1); occ st (r + 1) (c + 1); occ st (r + 1) (c - 1)].

Definition free9 (st : State) (r c : Z) : bool :=
  forallb (fun o => match o with None => true | Some _ => false end) (inspected st r c).

(** ** Views of the state *)

Definition with_rng (st : State) (n : N) : State :=
  mkState (board st) (rows st) (spaces st) (next_loc st) n.

Definition same_view (st st' : State) : Prop :=
  board st = board st' /\ rows st = rows st' /\ spaces st = spaces st'.

Definition sample (rnd : RandomSource) (base : N) (i : nat) : Position :=
  mkPos (floor15 (rnd (base + 3 * N.of_nat i)%N))
        (floor15 (rnd (base + 3 * N.of_nat i + 1)%N))
        (lt_half (rnd (base + 3 * N.of_nat i + 2)%N)).

(** ** A decision procedure for [wf], to check concrete boards *)

Definition row_okb (a : JsArray) : bool :=
  bool_decide (length a = 15) &&
  bool_decide (dom (props a) = list_to_set (seqZ 0 15)).

Definition wfb (st : State) : bool :=
  bool_decide (List.length (board_refs (board st)) = 15%nat) &&
  bool_decide (NoDup (board_refs (board st))) &&
  forallb (fun rr => row_okb (row_of st rr)) (board_refs (board st)).

(** [shipLengths.map(length => new Ship(length))] *)
Fixpoint new_ships (lens : list nat) : M (list Ship) :=
  match lens with
  | [] => ret []
  | n :: lens' => let* s := Ship_new n in let* ss := new_ships lens' in ret (s :: ss)
  end.

(** A fresh board and fresh ships of the given lengths, as the player set-up
    creates them. *)
Definition demo_ships (lens : list nat) : list Ship * State :=
  match run (new_ships lens) fresh_board with
  | Some r => r
  | None => ([], fresh_board)
  end.

(** A fresh board with one fresh ship of length [n]. *)
Definition demo_state (n : nat) : State := (demo_ships [n]).2.
Definition demo_ship (n : nat) : Ship := hd (mkShip 0%nat []) (demo_ships [n]).1.

(** The ship's segments at the cells of a placement [p]: each cell holds
    the very [Space] object [hits[i]] of the ship, whose [parent] is set. *)
Definition aliased (st : State) (p : Position) (ship : Ship) : Prop :=
  wf st /\ forall i l, hits ship !! i = Some l ->
    cell_ref st (cell_col p i) (cell_row p i) = Ok l /\ is_Some (parent (space_of st l)).

(** The board operations that may follow a placement, each used within its
    documented precondition ([placeShip] on in-grid, unoccupied targets);
    [canPlace] and [checkHit] leave the state as it is. [resetBoard] is not
    among them. *)
Inductive later_op : State -> State -> Prop :=
| op_receiveAttack c r res st st' :
    receiveAttack c r st = Ok (res, st') -> later_op st st'
| op_findValidPosition rnd ship o st st' :
    findValidPosition rnd ship st = Ok (o, st') -> later_op st st'
| op_autoPlaceShips rnd ships b st st' :
    autoPlaceShips rnd ships st = Ok (b, st') -> later_op st st'
| op_placeShip p ship st st' :
    (forall j, (j < List.length (hits ship))%nat ->
       in_grid (cell_row p j) (cell_col p j) /\ occ st (cell_row p j) (cell_col p j) = None) ->
    placeShip p ship st = Ok (tt, st') -> later_op st st'.

(** A fresh board and a fresh ship of length 1, after [receiveAttack(0, 0)]
    hit the still empty cell (0, 0). *)
Definition hit_demo : State :=
  match run (receiveAttack 0 0) (demo_state 1) with
  | Some (_, st) => st
  | None => demo_state 1
  end.

(** [demo_state 1] after [placeShip({col: 0, row: 0, horizontal: true}, ship)]. *)
Definition placed_demo : State :=
  match run (placeShip (mkPos 0 0 true) (demo_ship 1)) (demo_state 1) with
  | Some (_, st) => st
  | None => demo_state 1
  end.

(** [Math.random] returning 0 at every call. *)
Definition zero_rnd : RandomSource := fun _ => 0.

(** A fresh board with the ships [new Ship(1)] and [new Ship(16)]. *)
Definition two_ships_demo : list Ship * State := demo_ships [1%nat; 16%nat].

(** The state after [autoPlaceShips] on [two_ships_demo]. *)
Definition after_failed_auto : State :=
  match run (autoPlaceShips zero_rnd two_ships_demo.1) two_ships_demo.2 with
  | Some (_, st) => st
  | None => two_ships_demo.2
  end.

(** Two placements keep their distance: every cell of the one is more than
    one row or more than one column away from every cell of the other. *)
Definition separated (p : Position) (s : Ship) (q : Position) (t : Ship) : Prop :=
  forall i j, (i < List.length (hits s))%nat -> (j < List.length (hits t))%nat ->
    1 < Z.abs (cell_row p i - cell_row q j) \/ 1 < Z.abs (cell_col p i - cell_col q j).

(** A linear congruential stream of [Math.random] draws in [0, 2^53). *)
Definition lcg_rnd : RandomSource :=
  fun n => (Z.of_N n * 6364136223846793005 + 1442695040888963407) mod 2 ^ 53.

(** A fresh board with the ships [new Ship(2)] and [new Ship(3)]. *)
Definition pair_ships_demo : list Ship * State := demo_ships [2%nat; 3%nat].

(** The state after [autoPlaceShips] with [lcg_rnd] on [pair_ships_demo]. *)
Definition auto_demo : State :=
  match run (autoPlaceShips lcg_rnd pair_ships_demo.1) pair_ships_demo.2 with
  | Some (_, st) => st
  | None => pair_ships_demo.2
  end.

(** The row references of [placed_demo]'s board array. *)
Definition placed_rows : list loc := Eval vm_compute in board_refs (board placed_demo).

(** The result and the state of [receiveAttack(0, 0)] on [placed_demo]. *)
Definition attack_demo : option shipref * State :=
  match run (receiveAttack 0 0) placed_demo with
  | Some r => r
  | None => (None, placed_demo)
  end.

(** A boolean test of [f] over the 225 cells of the grid. *)
Definition all_cells (f : Z -> Z -> bool) : bool :=
  forallb (fun r => forallb (fun c => f r c) (seqZ 0 15)) (seqZ 0 15).

(** Whether the cells [(r, c)] and [(r', c')] hold the same [Space] object. *)
Definition same_space (st : State) (r c r' c' : Z) : bool :=
  match cell_ref st c r, cell_ref st c' r' with
  | Ok l, Ok l' => Nat.eqb l l'
  | _, _ => false
  end.

Ltac find_in := first [apply elem_of_cons; left; reflexivity
                      | apply elem_of_cons; right; find_in].

Ltac segments_have_parent :=
  apply Forall_forall; apply (proj1 (bool_decide_eq_true _)); vm_compute; reflexivity.


(** ** Lemmas on board access *)

Lemma board_at_Some b r rr : board_at b r = Some rr -> rr ∈ board_refs b /\ 0 <= r.
Proof.
  unfold board_at. destruct (Z.leb_spec 0 r); [|discriminate].
  intros Hl. split; [|lia]. by eapply list_elem_of_lookup_2.
Qed.

Lemma board_at_wf st r : wf st -> is_Some (board_at (board st) r) <-> 0 <= r < 15.
Proof.
  intros [Hlen _]. unfold board_at.
  destruct (Z.leb_spec 0 r).
  - rewrite lookup_lt_is_Some, Hlen. lia.
  - split; [intros [? H']; discriminate|lia].
Qed.

Lemma board_at_grid st r : wf st -> 0 <= r < 15 ->
  exists rr, board_at (board st) r = Some rr /\ row_ok (row_of st rr).
Proof.
  intros Hwf Hr. apply (board_at_wf st r Hwf) in Hr as [rr Hrr].
  exists rr. split; [done|]. apply Hwf. by apply board_at_Some in Hrr as [? _].
Qed.

Lemma board_at_none st r : wf st -> ~ (0 <= r < 15) -> board_at (board st) r = None.
Proof.
  intros Hwf Hr. destruct (board_at (board st) r) eqn:E; [|done].
  exfalso. apply Hr, (board_at_wf st r Hwf). by rewrite E.
Qed.

Lemma occ_out st r c : wf st -> ~ in_grid r c -> occ st r c = None.
Proof.
  intros Hwf Hg. unfold occ.
  destruct (decide (0 <= r < 15)) as [Hr|Hr].
  - destruct (board_at_grid st r Hwf Hr) as (rr & -> & _ & Hrow).
    destruct (props (row_of st rr) !! c) eqn:E; [|done].
    exfalso. apply Hg. split; [done|]. apply Hrow. by rewrite E.
  - by rewrite board_at_none.
Qed.

Lemma parent_chain_wf st q1 q2 r c : wf st ->
  (q1 = true \/ 0 <= r < 15) -> (q2 = true \/ 0 <= c < 15) ->
  parent_chain st q1 q2 r c = Ok (occ st r c).
Proof.
  intros Hwf H1 H2. unfold parent_chain, occ.
  destruct (board_at (board st) r) as [rr|] eqn:E.
  - apply board_at_Some in E as [Hin _]. destruct (proj2 (proj2 Hwf) rr Hin) as [_ Hrow].
    destruct (props (row_of st rr) !! c) eqn:E2; [done|].
    destruct H2 as [->|H2]; [done|]. apply Hrow in H2. rewrite E2 in H2.
    by destruct H2.
  - destruct H1 as [->|H1]; [done|].
    apply (board_at_wf st r Hwf) in H1. rewrite E in H1. by destruct H1.
Qed.

Lemma parent_chain_out st r c : wf st -> ~ in_grid r c ->
  parent_chain st false false r c = Throw TypeError.
Proof.
  intros Hwf Hg. unfold parent_chain.
  destruct (decide (0 <= r < 15)) as [Hr|Hr].
  - destruct (board_at_grid st r Hwf Hr) as (rr & -> & _ & Hrow).
    destruct (props (row_of st rr) !! c) eqn:E; [|done].
    exfalso. apply Hg. split; [done|]. apply Hrow. by rewrite E.
  - by rewrite board_at_none.
Qed.

(** The body of the [canPlace] loop at an in-grid cell. *)
Lemma canPlace_body st r c k : wf st -> in_grid r c ->
  reject (parent_chain st false false r c)
    (check_offset st r c (-1) (check_offset st r c 1 k))
  = if free9 st r c then k else Ok false.
Proof.
  intros Hwf [Hr Hc]. unfold check_offset.
  rewrite !parent_chain_wf by (auto; lia).
  unfold free9, inspected. simpl.
  repeat match goal with |- context [occ st ?a ?b] => destruct (occ st a b) end;
    reflexivity.
Qed.

Lemma canPlace_loop_wf st hz r c is : wf st ->
  (forall i, i ∈ is -> in_grid (r + and_num (negb hz) (Z.of_nat i)) (c + and_num hz (Z.of_nat i))) ->
  canPlace_loop st hz r c is =
  Ok (forallb (fun i => free9 st (r + and_num (negb hz) (Z.of_nat i)) (c + and_num hz (Z.of_nat i))) is).
Proof.
  intros Hwf. induction is as [|i is IH]; intros Hg; simpl; [done|].
  rewrite canPlace_body by (auto; apply Hg; left).
  destruct (free9 _ _ _); simpl; [|done].
  apply IH. intros j Hj. apply Hg. by right.
Qed.

Lemma canPlace_loop_true st hz r c is : wf st ->
  canPlace_loop st hz r c is = Ok true ->
  forall i, i ∈ is ->
    in_grid (r + and_num (negb hz) (Z.of_nat i)) (c + and_num hz (Z.of_nat i)) /\
    free9 st (r + and_num (negb hz) (Z.of_nat i)) (c + and_num hz (Z.of_nat i)) = true.
Proof.
  intros Hwf. induction is as [|i is IH]; simpl; intros H j Hj.
  - by apply elem_of_nil in Hj.
  - destruct (decide (in_grid (r + and_num (negb hz) (Z.of_nat i)) (c + and_num hz (Z.of_nat i)))) as [Hg|Hg].
    + rewrite canPlace_body in H by done.
      destruct (free9 _ _ _) eqn:Hf; [|discriminate].
      apply elem_of_cons in Hj as [->|Hj]; [done|]. by apply IH.
    + by rewrite parent_chain_out in H.
Qed.

Lemma free9_all st r c :
  free9 st r c = true <-> forall o, o ∈ inspected st r c -> o = None.
Proof.
  unfold free9. rewrite forallb_forall. split; intros H o Ho.
  - apply list_elem_of_In in Ho. specialize (H o Ho). by destruct o.
  - apply list_elem_of_In in Ho. by rewrite (H o Ho).
Qed.

Lemma free9_iff st r c :
  free9 st r c = true <->
  forall dr dc, -1 <= dr <= 1 -> -1 <= dc <= 1 -> occ st (r + dr) (c + dc) = None.
Proof.
  rewrite free9_all. split.
  - intros H dr dc Hdr Hdc. apply H. unfold inspected.
    replace (c - -1) with (c + 1) by lia.
    destruct (ltac:(lia) : dr = -1 \/ dr = 0 \/ dr = 1) as [ -> | [ -> | -> ] ];
    destruct (ltac:(lia) : dc = -1 \/ dc = 0 \/ dc = 1) as [ -> | [ -> | -> ] ];
    rewrite ?Z.add_0_r; find_in.
  - intros H.
    assert (H' : forall x y, -1 <= x - r <= 1 -> -1 <= y - c <= 1 -> occ st x y = None).
    { intros x y Hx Hy. specialize (H (x - r) (y - c) Hx Hy).
      by replace (r + (x - r)) with x in H by lia; replace (c + (y - c)) with y in H by lia. }
    intros o Ho. unfold inspected in Ho.
    repeat (apply elem_of_cons in Ho as [->|Ho]; [apply H'; lia|]).
    by apply elem_of_nil in Ho.
Qed.

Lemma canPlace_wf st p s : wf st -> 0 <= col p -> 0 <= row p ->
  canPlace st p s =
  Ok (negb ((14 <? col p + and_num (horizontal p) (ship_len s - 1)) ||
            (14 <? row p + and_num (negb (horizontal p)) (ship_len s - 1))) &&
      forallb (fun i => free9 st (cell_row p i) (cell_col p i)) (seq 0 (List.length (hits s)))).
Proof.
  intros Hwf Hc Hr. unfold canPlace. cbv zeta.
  destruct (14 <? col p + _) eqn:E1; [done|]. destruct (14 <? row p + _) eqn:E2; [done|]. simpl.
  apply Z.ltb_ge in E1, E2.
  apply canPlace_loop_wf; [done|]. intros i Hi.
  apply list_elem_of_In, in_seq in Hi. unfold ship_len in *.
  unfold in_grid. destruct (horizontal p); simpl in *; lia.
Qed.

Lemma canPlace_true st p s : wf st -> canPlace st p s = Ok true ->
  col p + and_num (horizontal p) (ship_len s - 1) <= 14 /\
  row p + and_num (negb (horizontal p)) (ship_len s - 1) <= 14 /\
  forall i, (i < List.length (hits s))%nat ->
    in_grid (cell_row p i) (cell_col p i) /\ free9 st (cell_row p i) (cell_col p i) = true.
Proof.
  intros Hwf. unfold canPlace. cbv zeta.
  destruct (14 <? col p + _) eqn:E1; [discriminate|].
  destruct (14 <? row p + _) eqn:E2; [discriminate|].
  simpl. intros H. apply Z.ltb_ge in E1, E2. split; [done|]. split; [done|].
  intros i Hi. apply (canPlace_loop_true _ _ _ _ _ Hwf H).
  apply list_elem_of_In, in_seq. lia.
Qed.

(** ** [Math.floor(Math.random() * 15)] stays in [0, 15) *)

Lemma floor15_range k : 0 <= k < 2 ^ 53 -> 0 <= floor15 k < 15.
Proof.
  intros Hk. assert (E53 : 2 ^ 53 = 9007199254740992) by reflexivity.
  unfold floor15, fl53.
  destruct (Z.ltb_spec (15 * k) (2 ^ 53)).
  - split; [apply Z.div_pos; lia|]. apply Z.div_lt_upper_bound; lia.
  - set (n := 15 * k) in *.
    assert (He : 1 <= Z.log2 n - 52 <= 4).
    { split.
      - assert (53 <= Z.log2 n); [|lia].
        rewrite <- (Z.log2_pow2 53) by lia. apply Z.log2_le_mono. lia.
      - assert (Z.log2 n < 57); [|lia].
        apply Z.log2_lt_pow2; [lia|]. assert (2 ^ 57 = 144115188075855872) by reflexivity. lia. }
    set (e := Z.log2 n - 52) in *. unfold round_shift.
    assert (HP : 2 ^ e = 2 * 2 ^ (e - 1)).
    { rewrite <- Z.pow_succ_r by lia. f_equal. lia. }
    assert (Hh : 1 <= 2 ^ (e - 1) <= 8).
    { split; [apply (Z.pow_le_mono_r 2 0 (e - 1)); lia|].
      change 8 with (2 ^ 3). apply Z.pow_le_mono_r; lia. }
    pose proof (Z.div_mod n (2 ^ e) ltac:(lia)).
    pose proof (Z.mod_pos_bound n (2 ^ e) ltac:(lia)).
    set (q := n / 2 ^ e) in *. set (rm := n mod 2 ^ e) in *.
    set (P := 2 ^ e) in *. set (h := 2 ^ (e - 1)) in *.
    assert (0 <= q) by (apply Z.div_pos; lia).
    assert (Hm : forall q', (q' = q \/ (q' = q + 1 /\ h <= rm)) ->
                 0 <= q' * P / 2 ^ 53 < 15).
    { intros q' Hq'. split; [apply Z.div_pos; nia|].
      apply Z.div_lt_upper_bound; [lia|]. destruct Hq' as [->|[-> Hr]]; nia. }
    destruct (Z.ltb_spec rm h); [apply Hm; auto|].
    destruct (Z.ltb_spec h rm); [apply Hm; right; lia|].
    destruct (Z.even q); apply Hm; [left|right]; auto; lia.
Qed.

(** ** [canPlace] reads only the board, the rows and the spaces *)

Lemma parent_chain_view st st' q1 q2 r c : same_view st st' ->
  parent_chain st q1 q2 r c = parent_chain st' q1 q2 r c.
Proof.
  intros (Hb & Hr & Hs). unfold parent_chain, row_of, space_of. by rewrite Hb, Hr, Hs.
Qed.

Lemma canPlace_view st st' p s : same_view st st' -> canPlace st p s = canPlace st' p s.
Proof.
  intros Hv. unfold canPlace. cbv zeta.
  destruct (_ || _); [done|].
  generalize (seq 0 (List.length (hits s))). intros is.
  induction is as [|i is IH]; simpl; [done|].
  unfold check_offset. rewrite !(parent_chain_view st st') by done. by rewrite IH.
Qed.

Lemma occ_view st st' r c : same_view st st' -> occ st r c = occ st' r c.
Proof. intros (Hb & Hr & Hs). unfold occ, row_of, space_of. by rewrite Hb, Hr, Hs. Qed.

Lemma cell_ref_view st st' c r : same_view st st' -> cell_ref st c r = cell_ref st' c r.
Proof. intros (Hb & Hr & Hs). unfold cell_ref, row_of. by rewrite Hb, Hr. Qed.

Lemma draw_eq rnd st : draw rnd st = Ok (rnd (rng st), with_rng st (N.succ (rng st))).
Proof. reflexivity. Qed.

(** ** The search loop of [findValidPosition] *)

Lemma findValidPosition_loop_spec rnd ship n st :
  match findValidPosition_loop rnd ship n st with
  | Ok (Some p, st') =>
      exists i, (i < n)%nat /\ p = sample rnd (rng st) i /\ canPlace st p ship = Ok true /\
        (forall j, (j < i)%nat -> canPlace st (sample rnd (rng st) j) ship = Ok false) /\
        st' = with_rng st (rng st + 3 * N.of_nat (S i))
  | Ok (None, st') =>
      (forall j, (j < n)%nat -> canPlace st (sample rnd (rng st) j) ship = Ok false) /\
      st' = with_rng st (rng st + 3 * N.of_nat n)
  | Throw e =>
      exists i, (i < n)%nat /\ canPlace st (sample rnd (rng st) i) ship = Throw e /\
        (forall j, (j < i)%nat -> canPlace st (sample rnd (rng st) j) ship = Ok false)
  end.
Proof.
  revert st. induction n as [|n IH]; intros st; simpl.
  - split; [lia|]. destruct st; unfold with_rng; simpl. f_equal. lia.
  - unfold bindM. rewrite !draw_eq. simpl.
    set (st3 := with_rng (with_rng (with_rng st (N.succ (rng st))) (N.succ (N.succ (rng st))))
                         (N.succ (N.succ (N.succ (rng st))))).
    assert (Hv : same_view st3 st) by done.
    assert (Hs : forall i, sample rnd (rng st3) i = sample rnd (rng st) (S i)).
    { intros i. unfold sample, st3, with_rng. simpl. f_equal; do 2 f_equal; lia. }
    assert (Hs0 : mkPos (floor15 (rnd (rng st))) (floor15 (rnd (N.succ (rng st))))
                        (lt_half (rnd (N.succ (N.succ (rng st))))) = sample rnd (rng st) 0).
    { unfold sample. simpl. f_equal; do 2 f_equal; lia. }
    rewrite Hs0, (canPlace_view st3 st) by done.
    destruct (canPlace st (sample rnd (rng st) 0) ship) as [[|]|e] eqn:E0.
    + exists 0%nat. split; [lia|]. split; [done|]. split; [done|]. split; [intros; lia|].
      unfold st3, with_rng. f_equal. lia.
    + specialize (IH st3). revert IH.
      destruct (findValidPosition_loop rnd ship n st3) as [[[p|] st']|e]; intros IH.
      * destruct IH as (i & Hi & -> & Hc & Hj & ->). exists (S i).
        rewrite Hs, (canPlace_view st3 st) in * by done.
        split; [lia|]. split; [done|]. split; [done|]. split.
        -- intros [|j] Hj'; [done|]. rewrite <- Hs, <- (canPlace_view st3 st) by done.
           apply Hj. lia.
        -- unfold st3, with_rng. simpl. f_equal. lia.
      * destruct IH as [Hj ->]. split.
        -- intros [|j] Hj'; [done|]. rewrite <- Hs, <- (canPlace_view st3 st) by done.
           apply Hj. lia.
        -- unfold st3, with_rng. simpl. f_equal. lia.
      * destruct IH as (i & Hi & Hc & Hj). exists (S i).
        rewrite Hs, (canPlace_view st3 st) in Hc by done.
        split; [lia|]. split; [done|].
        intros [|j] Hj'; [done|]. rewrite <- Hs, <- (canPlace_view st3 st) by done.
        apply Hj. lia.
    + exists 0%nat. split; [lia|]. split; [done|]. intros; lia.
Qed.

Lemma wfb_sound st : wfb st = true -> wf st.
Proof.
  unfold wfb. intros H. apply andb_prop in H as [H H3]. apply andb_prop in H as [H1 H2].
  apply bool_decide_eq_true in H1, H2. split; [done|]. split; [done|].
  intros rr Hrr. apply list_elem_of_In in Hrr.
  rewrite forallb_forall in H3. specialize (H3 rr Hrr).
  unfold row_okb in H3. apply andb_prop in H3 as [Hl Hd].
  apply bool_decide_eq_true in Hl, Hd. split; [done|].
  intros c. rewrite <- elem_of_dom, Hd, elem_of_list_to_set, elem_of_seqZ. lia.
Qed.

Lemma fresh_board_wf : wf fresh_board.
Proof. apply wfb_sound. vm_compute. reflexivity. Qed.


(** ** Claims about [canPlace] and [findValidPosition] *)

(** C2: on a 15x15 board, for a position with [col, row >= 0], [canPlace]
    returns true exactly when (1) the last cell of the ship is within
    column 14 and row 14, (2) none of the ship's cells is occupied and
    (3) no in-grid neighbour (orthogonal or diagonal) of those cells is
    occupied. *)
Theorem canPlace_iff (st : State) (p : Position) (ship : Ship) :
  wf st -> 0 <= col p -> 0 <= row p ->
  canPlace st p ship = Ok true <->
  ((if horizontal p then col p + (ship_len ship - 1) else col p) <= 14 /\
   (if horizontal p then row p else row p + (ship_len ship - 1)) <= 14 /\
   (forall i, (i < List.length (hits ship))%nat ->
      occ st (cell_row p i) (cell_col p i) = None) /\
   (forall i, (i < List.length (hits ship))%nat ->
      forall dr dc, -1 <= dr <= 1 -> -1 <= dc <= 1 -> (dr, dc) <> (0, 0) ->
      in_grid (cell_row p i + dr) (cell_col p i + dc) ->
      occ st (cell_row p i + dr) (cell_col p i + dc) = None)).
Proof.
  intros Hwf Hc Hr. split.
  - intros H. destruct (canPlace_true _ _ _ Hwf H) as (Hb1 & Hb2 & Hcells).
    split; [destruct (horizontal p); simpl in *; lia|].
    split; [destruct (horizontal p); simpl in *; lia|].
    split.
    + intros i Hi. destruct (Hcells i Hi) as [_ Hf]. rewrite free9_iff in Hf.
      specialize (Hf 0 0). rewrite !Z.add_0_r in Hf. apply Hf; lia.
    + intros i Hi dr dc Hdr Hdc _ _. destruct (Hcells i Hi) as [_ Hf].
      rewrite free9_iff in Hf. by apply Hf.
  - intros (Hb1 & Hb2 & Hown & Hnb). rewrite canPlace_wf by done. f_equal.
    apply andb_true_intro. split.
    + apply negb_true_iff, orb_false_iff.
      split; apply Z.ltb_ge; destruct (horizontal p); simpl in *; lia.
    + apply forallb_forall. intros i Hi. apply in_seq in Hi.
      apply free9_iff. intros dr dc Hdr Hdc.
      destruct (decide ((dr, dc) = (0, 0))) as [E|E].
      * injection E as -> ->. rewrite !Z.add_0_r. apply Hown. lia.
      * destruct (decide (in_grid (cell_row p i + dr) (cell_col p i + dc))) as [Hg|Hg].
        -- apply Hnb; auto. lia.
        -- by apply occ_out.
Qed.

Lemma canPlace_C2_witness :
  (wf fresh_board /\ 0 <= 3 /\ 0 <= 4) /\
  (canPlace fresh_board (mkPos 3 4 true) (mkShip 0%nat [1%nat; 2%nat]) = Ok true <->
   ((if horizontal (mkPos 3 4 true) then 3 + (ship_len (mkShip 0%nat [1%nat; 2%nat]) - 1) else 3) <= 14 /\
    (if horizontal (mkPos 3 4 true) then 4 else 4 + (ship_len (mkShip 0%nat [1%nat; 2%nat]) - 1)) <= 14 /\
    (forall i, (i < List.length (hits (mkShip 0%nat [1%nat; 2%nat])))%nat ->
       occ fresh_board (cell_row (mkPos 3 4 true) i) (cell_col (mkPos 3 4 true) i) = None) /\
    (forall i, (i < List.length (hits (mkShip 0%nat [1%nat; 2%nat])))%nat ->
       forall dr dc, -1 <= dr <= 1 -> -1 <= dc <= 1 -> (dr, dc) <> (0, 0) ->
       in_grid (cell_row (mkPos 3 4 true) i + dr) (cell_col (mkPos 3 4 true) i + dc) ->
       occ fresh_board (cell_row (mkPos 3 4 true) i + dr) (cell_col (mkPos 3 4 true) i + dc) = None))).
Proof.
  split; [split; [apply wfb_sound; vm_compute; reflexivity | lia]|].
  apply (canPlace_iff fresh_board (mkPos 3 4 true) (mkShip 0%nat [1%nat; 2%nat]));
    [apply wfb_sound; vm_compute; reflexivity | simpl; lia | simpl; lia].
Defined.

Lemma findValidPosition_ok rnd ship st : wf st -> (forall n, 0 <= rnd n < 2 ^ 53) ->
  exists o st', findValidPosition rnd ship st = Ok (o, st').
Proof.
  intros Hwf Hrnd. pose proof (findValidPosition_loop_spec rnd ship maxIterations st) as H.
  unfold findValidPosition.
  destruct (findValidPosition_loop rnd ship maxIterations st) as [[o st']|e]; [eauto|].
  destruct H as (i & _ & Hc & _).
  rewrite canPlace_wf in Hc by (try done; apply floor15_range, Hrnd). discriminate.
Qed.

(** C3 (amended): on a 15x15 board [canPlace] returns a boolean without
    throwing for every position with [col >= 0] and [row >= 0] and every
    ship, and [findValidPosition] returns a position or null without
    throwing; but a position with a negative [col] or [row] that passes the
    upper bounds check (ship of length >= 1) makes [canPlace] throw a
    [TypeError]. *)
Theorem canPlace_throw_free (st : State) : wf st ->
  (forall p ship, 0 <= col p -> 0 <= row p -> exists b, canPlace st p ship = Ok b) /\
  (forall rnd ship, (forall n, 0 <= rnd n < 2 ^ 53) ->
     exists o st', findValidPosition rnd ship st = Ok (o, st')) /\
  (forall p ship, (col p < 0 \/ row p < 0) -> (1 <= List.length (hits ship))%nat ->
     col p + and_num (horizontal p) (ship_len ship - 1) <= 14 ->
     row p + and_num (negb (horizontal p)) (ship_len ship - 1) <= 14 ->
     canPlace st p ship = Throw TypeError).
Proof.
  intros Hwf. split; [|split].
  - intros p ship Hc Hr. rewrite canPlace_wf by done. eauto.
  - intros rnd ship Hrnd. by apply findValidPosition_ok.
  - intros p ship Hneg Hlen Hb1 Hb2. unfold canPlace. cbv zeta.
    destruct (Z.ltb_spec 14 (col p + and_num (horizontal p) (ship_len ship - 1))); [lia|].
    destruct (Z.ltb_spec 14 (row p + and_num (negb (horizontal p)) (ship_len ship - 1))); [lia|].
    simpl. destruct (hits ship) as [|l ls]; simpl in Hlen; [lia|]. simpl.
    rewrite parent_chain_out; [done|done|]. unfold in_grid, and_num.
    destruct (horizontal p); simpl; lia.
Qed.

Lemma canPlace_throw_free_witness :
  wf fresh_board /\
  ((forall p ship, 0 <= col p -> 0 <= row p -> exists b, canPlace fresh_board p ship = Ok b) /\
   (forall rnd ship, (forall n, 0 <= rnd n < 2 ^ 53) ->
      exists o st', findValidPosition rnd ship fresh_board = Ok (o, st')) /\
   (forall p ship, (col p < 0 \/ row p < 0) -> (1 <= List.length (hits ship))%nat ->
      col p + and_num (horizontal p) (ship_len ship - 1) <= 14 ->
      row p + and_num (negb (horizontal p)) (ship_len ship - 1) <= 14 ->
      canPlace fresh_board p ship = Throw TypeError)).
Proof.
  split; [apply wfb_sound; vm_compute; reflexivity|].
  apply (canPlace_throw_free fresh_board). apply wfb_sound. vm_compute. reflexivity.
Defined.

(** C3 fails as stated: on a fresh board, [canPlace] at column -1 with a
    ship of length 1 throws ([board[0][-1]] is [undefined], and reading its
    [parent] throws). [canPlace] reads nothing of the ship but the length of
    its [hits]. *)
Lemma canPlace_negative_col_throws :
  canPlace fresh_board (mkPos (-1) 0 true) (mkShip 0%nat [0%nat]) = Throw TypeError.
Proof. vm_compute. reflexivity. Qed.

(** C7: [findValidPosition] makes at most 100000 attempts; attempt [i]
    consumes the draws [3i], [3i+1], [3i+2] of [Math.random] and tests the
    position they give, whose column and row lie in [0, 15); it returns the
    first position accepted by [canPlace], or null once every attempt has
    failed. *)
Theorem findValidPosition_search (rnd : RandomSource) (ship : Ship) (st : State) :
  wf st -> (forall n, 0 <= rnd n < 2 ^ 53) ->
  (forall i, 0 <= col (sample rnd (rng st) i) < 15 /\ 0 <= row (sample rnd (rng st) i) < 15) /\
  match findValidPosition rnd ship st with
  | Ok (Some p, st') =>
      exists i, (i < maxIterations)%nat /\ p = sample rnd (rng st) i /\
        canPlace st p ship = Ok true /\
        (forall j, (j < i)%nat -> canPlace st (sample rnd (rng st) j) ship = Ok false) /\
        st' = with_rng st (rng st + 3 * N.of_nat (S i))
  | Ok (None, st') =>
      (forall j, (j < maxIterations)%nat -> canPlace st (sample rnd (rng st) j) ship = Ok false) /\
      st' = with_rng st (rng st + 3 * N.of_nat maxIterations)
  | Throw _ => False
  end.
Proof.
  intros Hwf Hrnd. split.
  - intros i. unfold sample. simpl. split; apply floor15_range, Hrnd.
  - pose proof (findValidPosition_loop_spec rnd ship maxIterations st) as H.
    destruct (findValidPosition_ok rnd ship st Hwf Hrnd) as (o & st' & E).
    unfold findValidPosition in *. rewrite E in H |- *. exact H.
Qed.

Lemma findValidPosition_search_witness :
  (wf fresh_board /\ forall n : N, 0 <= (fun _ : N => 0) n < 2 ^ 53) /\
  ((forall i, 0 <= col (sample (fun _ => 0) (rng fresh_board) i) < 15 /\
              0 <= row (sample (fun _ => 0) (rng fresh_board) i) < 15) /\
   match findValidPosition (fun _ => 0) (mkShip 0%nat [1%nat]) fresh_board with
   | Ok (Some p, st') =>
       exists i, (i < maxIterations)%nat /\ p = sample (fun _ => 0) (rng fresh_board) i /\
         canPlace fresh_board p (mkShip 0%nat [1%nat]) = Ok true /\
         (forall j, (j < i)%nat ->
            canPlace fresh_board (sample (fun _ => 0) (rng fresh_board) j) (mkShip 0%nat [1%nat]) = Ok false) /\
         st' = with_rng fresh_board (rng fresh_board + 3 * N.of_nat (S i))
   | Ok (None, st') =>
       (forall j, (j < maxIterations)%nat ->
          canPlace fresh_board (sample (fun _ => 0) (rng fresh_board) j) (mkShip 0%nat [1%nat]) = Ok false) /\
       st' = with_rng fresh_board (rng fresh_board + 3 * N.of_nat maxIterations)
   | Throw _ => False
   end).
Proof.
  assert (Hr : forall n : N, 0 <= (fun _ : N => 0) n < 2 ^ 53)
    by (intros; split; [lia|vm_compute; reflexivity]).
  split; [split; [apply wfb_sound; vm_compute; reflexivity|exact Hr]|].
  apply (findValidPosition_search (fun _ => 0) (mkShip 0%nat [1%nat]) fresh_board);
    [apply wfb_sound; vm_compute; reflexivity|exact Hr].
Defined.

(** ** Cell access and writes *)

Lemma board_at_inj b r r' x : NoDup (board_refs b) ->
  board_at b r = Some x -> board_at b r' = Some x -> r = r'.
Proof.
  unfold board_at. intros Hnd.
  destruct (Z.leb_spec 0 r); [|discriminate]. destruct (Z.leb_spec 0 r'); [|discriminate].
  intros H1 H2. pose proof (NoDup_lookup _ _ _ _ Hnd H1 H2). lia.
Qed.

Lemma occ_cell_ref st r c :
  occ st r c = match cell_ref st c r with Ok l => parent (space_of st l) | Throw _ => None end.
Proof.
  unfold occ, cell_ref. destruct (board_at (board st) r); [|done].
  by destruct (props _ !! c).
Qed.

Lemma cell_ref_grid st r c : wf st -> in_grid r c -> exists l, cell_ref st c r = Ok l.
Proof.
  intros Hwf [Hr Hc]. destruct (board_at_grid st r Hwf Hr) as (rr & Hrr & _ & Hrow).
  unfold cell_ref. rewrite Hrr. destruct (proj2 (Hrow c) Hc) as [l Hl]. rewrite Hl. eauto.
Qed.

Lemma row_ok_set a c v : row_ok a -> 0 <= c < 15 -> row_ok (js_set a c v).
Proof.
  intros [Hl Hk] Hc. split.
  - unfold js_set. simpl. rewrite Hl.
    destruct (Z.leb_spec 15 c); [lia|]. by rewrite !andb_false_r.
  - intros c'. simpl. destruct (decide (c = c')) as [<-|Hne].
    + rewrite lookup_insert_eq. split; [lia|eauto].
    + rewrite lookup_insert_ne by done. apply Hk.
Qed.

Lemma set_rows_twice st R1 R2 : set_rows (set_rows st R1) R2 = set_rows st R2.
Proof. reflexivity. Qed.

Lemma write_cell_spec st r c v : wf st -> in_grid r c ->
  exists R, write_cell r c v st = Ok (tt, set_rows st R) /\ wf (set_rows st R) /\
    cell_ref (set_rows st R) c r = Ok v /\
    forall c' r', (c', r') <> (c, r) -> cell_ref (set_rows st R) c' r' = cell_ref st c' r'.
Proof.
  intros Hwf [Hr Hc]. destruct (board_at_grid st r Hwf Hr) as (rr & Hrr & Hok).
  unfold write_cell. rewrite Hrr. eexists. split; [reflexivity|].
  set (R := <[rr := js_set (row_of st rr) c v]> (rows st)).
  assert (Hrow : forall rr', row_of (set_rows st R) rr' =
                   if decide (rr' = rr) then js_set (row_of st rr) c v else row_of st rr').
  { intros rr'. unfold row_of at 1, R. simpl. destruct (decide (rr' = rr)) as [->|Hne].
    - by rewrite lookup_insert_eq.
    - by rewrite lookup_insert_ne by done. }
  split; [|split].
  - destruct Hwf as (Hlen & Hnd & Hrows). split; [done|]. split; [done|].
    intros rr' Hin. rewrite Hrow. destruct (decide (rr' = rr)) as [->|]; [|by apply Hrows].
    by apply row_ok_set.
  - unfold cell_ref. simpl. rewrite Hrr, Hrow, decide_True by done. simpl.
    by rewrite lookup_insert_eq.
  - intros c' r' Hne. unfold cell_ref. simpl.
    destruct (board_at (board st) r') as [rr'|] eqn:E; [|done].
    rewrite Hrow. destruct (decide (rr' = rr)) as [->|]; [|done].
    assert (r' = r) as -> by (eapply board_at_inj; [apply Hwf|exact E|exact Hrr]).
    simpl. rewrite lookup_insert_ne; [done|]. intros ->. by apply Hne.
Qed.

(** ** The loop of [placeShip] *)

Lemma placeShip_loop_spec hz r c hs : forall i st, wf st ->
  (forall k, (k < List.length hs)%nat ->
     in_grid (r + and_num (negb hz) (Z.of_nat (i + k))) (c + and_num hz (Z.of_nat (i + k)))) ->
  exists R, placeShip_loop hz r c i hs st = Ok (tt, set_rows st R) /\ wf (set_rows st R) /\
    (forall k l, hs !! k = Some l ->
       cell_ref (set_rows st R) (c + and_num hz (Z.of_nat (i + k)))
                                (r + and_num (negb hz) (Z.of_nat (i + k))) = Ok l) /\
    (forall c' r', (forall k, (k < List.length hs)%nat ->
         (c', r') <> (c + and_num hz (Z.of_nat (i + k)), r + and_num (negb hz) (Z.of_nat (i + k)))) ->
       cell_ref (set_rows st R) c' r' = cell_ref st c' r').
Proof.
  induction hs as [|l hs IH]; intros i st Hwf Hg; simpl.
  - exists (rows st). split; [by destruct st|]. split; [by destruct st|].
    split; [intros k l Hk; by rewrite lookup_nil in Hk|]. intros c' r' _. by destruct st.
  - destruct (write_cell_spec st (r + and_num (negb hz) (Z.of_nat i))
                (c + and_num hz (Z.of_nat i)) l Hwf)
      as (R1 & Hw & Hwf1 & Hcell1 & Hframe1).
    { specialize (Hg 0%nat ltac:(simpl; lia)). by rewrite Nat.add_0_r in Hg. }
    destruct (IH (S i) (set_rows st R1) Hwf1) as (R2 & Hl & Hwf2 & Hcells & Hframe2).
    { intros k Hk. specialize (Hg (S k) ltac:(simpl; lia)). by rewrite <- Nat.add_succ_comm in Hg. }
    exists R2. unfold bindM. rewrite Hw. rewrite Hl, set_rows_twice.
    split; [done|]. rewrite set_rows_twice in Hwf2, Hcells, Hframe2.
    split; [done|]. split.
    + intros [|k] l' Hk; simpl in Hk.
      * injection Hk as <-. rewrite Nat.add_0_r, Hframe2; [done|].
        intros k Hk' Heq. injection Heq. destruct hz; simpl; lia.
      * rewrite <- Nat.add_succ_comm. by apply Hcells.
    + intros c' r' Hne. rewrite Hframe2, Hframe1.
      * done.
      * specialize (Hne 0%nat ltac:(simpl; lia)). by rewrite Nat.add_0_r in Hne.
      * intros k Hk. rewrite Nat.add_succ_comm. apply Hne. lia.
Qed.

Lemma placeShip_spec st p s : wf st ->
  (forall i, (i < List.length (hits s))%nat -> in_grid (cell_row p i) (cell_col p i)) ->
  exists R, placeShip p s st = Ok (tt, set_rows st R) /\ wf (set_rows st R) /\
    (forall i l, hits s !! i = Some l ->
       cell_ref (set_rows st R) (cell_col p i) (cell_row p i) = Ok l) /\
    (forall c r, (forall i, (i < List.length (hits s))%nat -> (c, r) <> (cell_col p i, cell_row p i)) ->
       cell_ref (set_rows st R) c r = cell_ref st c r).
Proof. intros Hwf Hg. by apply (placeShip_loop_spec _ _ _ _ 0%nat st Hwf). Qed.

Lemma footprint_grid p s :
  0 <= col p -> 0 <= row p ->
  (if horizontal p then col p + (ship_len s - 1) else col p) <= 14 ->
  (if horizontal p then row p else row p + (ship_len s - 1)) <= 14 ->
  forall i, (i < List.length (hits s))%nat -> in_grid (cell_row p i) (cell_col p i).
Proof.
  intros Hc Hr Hb1 Hb2 i Hi. unfold in_grid, cell_row, cell_col, ship_len in *.
  destruct (horizontal p); simpl in *; lia.
Qed.

(** ** Claims about [placeShip] *)

(** C5: for a placement whose cells are all on the board, [placeShip]
    returns no value and makes the cell at column [col + i*horizontal],
    row [row + i*(1-horizontal)] hold the ship's [i]-th segment [hits[i]],
    for each [i] below the ship's length; every other cell, the spaces and
    the board container are unchanged. *)
Theorem placeShip_assigns (st : State) (p : Position) (ship : Ship) :
  wf st -> 0 <= col p -> 0 <= row p ->
  (if horizontal p then col p + (ship_len ship - 1) else col p) <= 14 ->
  (if horizontal p then row p else row p + (ship_len ship - 1)) <= 14 ->
  exists st', placeShip p ship st = Ok (tt, st') /\
    (forall i l, hits ship !! i = Some l ->
       cell_ref st' (col p + Z.of_nat i * Z.b2z (horizontal p))
                    (row p + Z.of_nat i * (1 - Z.b2z (horizontal p))) = Ok l) /\
    (forall c r, (forall i, (i < List.length (hits ship))%nat ->
        (c, r) <> (col p + Z.of_nat i * Z.b2z (horizontal p),
                   row p + Z.of_nat i * (1 - Z.b2z (horizontal p)))) ->
       cell_ref st' c r = cell_ref st c r) /\
    spaces st' = spaces st /\ board st' = board st.
Proof.
  intros Hwf Hc Hr Hb1 Hb2.
  assert (Hcell : forall i, cell_col p i = col p + Z.of_nat i * Z.b2z (horizontal p) /\
                            cell_row p i = row p + Z.of_nat i * (1 - Z.b2z (horizontal p))).
  { intros i. unfold cell_col, cell_row. destruct (horizontal p); simpl; lia. }
  destruct (placeShip_spec st p ship Hwf (footprint_grid p ship Hc Hr Hb1 Hb2))
    as (R & Hp & _ & Hcells & Hframe).
  exists (set_rows st R). split; [done|]. split; [|split; [|split; reflexivity]].
  - intros i l Hl. destruct (Hcell i) as [<- <-]. by apply Hcells.
  - intros c r Hne. apply Hframe. intros i Hi. destruct (Hcell i) as [-> ->]. by apply Hne.
Qed.

Lemma placeShip_assigns_witness :
  (wf fresh_board /\ 0 <= 2 /\ 0 <= 5 /\
   (if horizontal (mkPos 2 5 false) then 2 + (ship_len (mkShip 0%nat [1%nat; 2%nat; 3%nat]) - 1) else 2) <= 14 /\
   (if horizontal (mkPos 2 5 false) then 5 else 5 + (ship_len (mkShip 0%nat [1%nat; 2%nat; 3%nat]) - 1)) <= 14) /\
  exists st', placeShip (mkPos 2 5 false) (mkShip 0%nat [1%nat; 2%nat; 3%nat]) fresh_board = Ok (tt, st') /\
    (forall i l, hits (mkShip 0%nat [1%nat; 2%nat; 3%nat]) !! i = Some l ->
       cell_ref st' (2 + Z.of_nat i * Z.b2z false) (5 + Z.of_nat i * (1 - Z.b2z false)) = Ok l) /\
    (forall c r, (forall i, (i < List.length (hits (mkShip 0%nat [1%nat; 2%nat; 3%nat])))%nat ->
        (c, r) <> (2 + Z.of_nat i * Z.b2z false, 5 + Z.of_nat i * (1 - Z.b2z false))) ->
       cell_ref st' c r = cell_ref fresh_board c r) /\
    spaces st' = spaces fresh_board /\ board st' = board fresh_board.
Proof.
  split; [split; [apply wfb_sound; vm_compute; reflexivity|]; unfold ship_len; simpl; lia|].
  apply (placeShip_assigns fresh_board (mkPos 2 5 false) (mkShip 0%nat [1%nat; 2%nat; 3%nat]));
    [apply wfb_sound; vm_compute; reflexivity|unfold ship_len; simpl; lia..].
Defined.

(** C4: once [canPlace(P, S)] holds and [placeShip(P, S)] has run (the
    ship's segments having the ship as [parent]), [canPlace] rejects every
    position (with [col, row >= 0]) whose footprint has a cell equal or
    adjacent, orthogonally or diagonally, to a cell of [S]. *)
Theorem placeShip_blocks (st : State) (p : Position) (s : Ship) :
  wf st -> canPlace st p s = Ok true ->
  (forall l, l ∈ hits s -> is_Some (parent (space_of st l))) ->
  exists st', placeShip p s st = Ok (tt, st') /\
    forall q t, 0 <= col q -> 0 <= row q ->
      (exists i j, (i < List.length (hits s))%nat /\ (j < List.length (hits t))%nat /\
         Z.abs (cell_row q j - cell_row p i) <= 1 /\ Z.abs (cell_col q j - cell_col p i) <= 1) ->
      canPlace st' q t = Ok false.
Proof.
  intros Hwf Hcp Hseg.
  destruct (canPlace_true st p s Hwf Hcp) as (_ & _ & Hcells).
  destruct (placeShip_spec st p s Hwf (fun i Hi => proj1 (Hcells i Hi)))
    as (R & Hp & Hwf' & Hset & _).
  exists (set_rows st R). split; [done|].
  intros q t Hqc Hqr (i & j & Hi & Hj & Hdr & Hdc).
  rewrite canPlace_wf by done. f_equal.
  destruct (forallb _ _) eqn:F; [|by rewrite andb_false_r].
  exfalso. rewrite forallb_forall in F.
  assert (Hjin : In j (seq 0 (List.length (hits t)))) by (apply in_seq; lia).
  specialize (F j Hjin). rewrite free9_iff in F.
  destruct (lookup_lt_is_Some_2 (hits s) i Hi) as [l Hl].
  specialize (F (cell_row p i - cell_row q j) (cell_col p i - cell_col q j)
                ltac:(lia) ltac:(lia)).
  replace (cell_row q j + (cell_row p i - cell_row q j)) with (cell_row p i) in F by lia.
  replace (cell_col q j + (cell_col p i - cell_col q j)) with (cell_col p i) in F by lia.
  rewrite occ_cell_ref, (Hset i l Hl) in F.
  destruct (Hseg l) as [x Hx]; [by eapply list_elem_of_lookup_2|].
  unfold space_of in F, Hx. simpl in F. by rewrite Hx in F.
Qed.

Lemma placeShip_blocks_witness :
  (wf (demo_state 2) /\ canPlace (demo_state 2) (mkPos 0 0 true) (demo_ship 2) = Ok true /\
   (forall l, l ∈ hits (demo_ship 2) -> is_Some (parent (space_of (demo_state 2) l)))) /\
  exists st', placeShip (mkPos 0 0 true) (demo_ship 2) (demo_state 2) = Ok (tt, st') /\
    forall q t, 0 <= col q -> 0 <= row q ->
      (exists i j, (i < List.length (hits (demo_ship 2)))%nat /\ (j < List.length (hits t))%nat /\
         Z.abs (cell_row q j - cell_row (mkPos 0 0 true) i) <= 1 /\
         Z.abs (cell_col q j - cell_col (mkPos 0 0 true) i) <= 1) ->
      canPlace st' q t = Ok false.
Proof.
  assert (Hwf : wf (demo_state 2)) by (apply wfb_sound; vm_compute; reflexivity).
  assert (Hcp : canPlace (demo_state 2) (mkPos 0 0 true) (demo_ship 2) = Ok true)
    by (vm_compute; reflexivity).
  assert (Hseg : forall l, l ∈ hits (demo_ship 2) -> is_Some (parent (space_of (demo_state 2) l)))
    by segments_have_parent.
  split; [exact (conj Hwf (conj Hcp Hseg))|]. exact (placeShip_blocks (demo_state 2) (mkPos 0 0 true) (demo_ship 2) Hwf Hcp Hseg).
Defined.

(** ** Claims about [receiveAttack] and [checkHit] *)

Lemma cell_ref_set_spaces st m c r : cell_ref (set_spaces st m) c r = cell_ref st c r.
Proof. by destruct st. Qed.

Lemma receiveAttack_at st c r l : cell_ref st c r = Ok l ->
  receiveAttack c r st =
  Ok (parent (space_of st l), set_spaces st (<[l := Space_hit (space_of st l)]> (spaces st))).
Proof.
  intros H. unfold receiveAttack. rewrite H, cell_ref_set_spaces, H.
  unfold space_of at 1. simpl. by rewrite lookup_insert_eq.
Qed.

(** C6: on an in-grid empty cell, [receiveAttack] returns no occupant and
    [checkHit] is then true; a second [receiveAttack] there again returns no
    occupant and leaves the board exactly as it was (so [checkHit] stays
    true). On an occupied cell, [receiveAttack] returns the occupant. *)
Theorem receiveAttack_checkHit (st : State) (c r : Z) :
  wf st -> in_grid r c ->
  (occ st r c = None ->
     exists st1, receiveAttack c r st = Ok (None, st1) /\ checkHit c r st1 = Ok true /\
       receiveAttack c r st1 = Ok (None, st1) /\ checkHit c r st1 = Ok true) /\
  (forall s, occ st r c = Some s ->
     exists st1, receiveAttack c r st = Ok (Some s, st1) /\ checkHit c r st1 = Ok true).
Proof.
  intros Hwf Hg. destruct (cell_ref_grid st r c Hwf Hg) as [l Hl].
  rewrite occ_cell_ref, Hl.
  set (st1 := set_spaces st (<[l := Space_hit (space_of st l)]> (spaces st))).
  assert (Hl1 : cell_ref st1 c r = Ok l) by (unfold st1; by rewrite cell_ref_set_spaces).
  assert (Hs1 : space_of st1 l = Space_hit (space_of st l))
    by (unfold space_of at 1; simpl; by rewrite lookup_insert_eq).
  assert (Hh1 : checkHit c r st1 = Ok true) by (unfold checkHit; by rewrite Hl1, Hs1).
  split.
  - intros Hnone. exists st1. rewrite (receiveAttack_at st c r l Hl), Hnone.
    split; [done|]. split; [done|]. split; [|done].
    rewrite (receiveAttack_at st1 c r l Hl1), Hs1. simpl. f_equal. f_equal; [done|].
    unfold st1, set_spaces. simpl. f_equal.
    rewrite insert_insert_eq. by f_equal.
  - intros s Hs. exists st1. rewrite (receiveAttack_at st c r l Hl), Hs. done.
Qed.

Lemma receiveAttack_checkHit_witness :
  (wf fresh_board /\ in_grid 7 3) /\
  ((occ fresh_board 7 3 = None ->
     exists st1, receiveAttack 3 7 fresh_board = Ok (None, st1) /\ checkHit 3 7 st1 = Ok true /\
       receiveAttack 3 7 st1 = Ok (None, st1) /\ checkHit 3 7 st1 = Ok true) /\
   (forall s, occ fresh_board 7 3 = Some s ->
     exists st1, receiveAttack 3 7 fresh_board = Ok (Some s, st1) /\ checkHit 3 7 st1 = Ok true)).
Proof.
  assert (Hwf : wf fresh_board) by (apply wfb_sound; vm_compute; reflexivity).
  assert (Hg : in_grid 7 3) by (unfold in_grid; lia).
  split; [exact (conj Hwf Hg)|]. exact (receiveAttack_checkHit fresh_board 3 7 Hwf Hg).
Defined.

(** ** Claims about [placeShip] replacing cell objects *)

(** C10: [placeShip] writes the ship's own segment objects into the target
    cells, so a hit recorded on an empty target cell is lost: after placing
    a ship whose segments are unhit over an empty cell [(col, row)] with
    [checkHit(col, row)] true, [checkHit(col, row)] is false. *)
Theorem placeShip_discards_hit (st : State) (p : Position) (ship : Ship) (i : nat) :
  wf st ->
  (forall j, (j < List.length (hits ship))%nat -> in_grid (cell_row p j) (cell_col p j)) ->
  (i < List.length (hits ship))%nat ->
  occ st (cell_row p i) (cell_col p i) = None ->
  checkHit (cell_col p i) (cell_row p i) st = Ok true ->
  (forall l, l ∈ hits ship -> isHit (space_of st l) = false) ->
  exists st', placeShip p ship st = Ok (tt, st') /\
    checkHit (cell_col p i) (cell_row p i) st' = Ok false.
Proof.
  intros Hwf Hg Hi _ _ Hunhit.
  destruct (placeShip_spec st p ship Hwf Hg) as (R & Hp & _ & Hcells & _).
  exists (set_rows st R). split; [done|].
  destruct (lookup_lt_is_Some_2 (hits ship) i Hi) as [l Hl].
  unfold checkHit. rewrite (Hcells i l Hl). f_equal.
  apply Hunhit. by eapply list_elem_of_lookup_2.
Qed.

Lemma placeShip_discards_hit_witness :
  (wf hit_demo /\
   (forall j, (j < List.length (hits (demo_ship 1)))%nat ->
      in_grid (cell_row (mkPos 0 0 true) j) (cell_col (mkPos 0 0 true) j)) /\
   (0 < List.length (hits (demo_ship 1)))%nat /\
   occ hit_demo (cell_row (mkPos 0 0 true) 0) (cell_col (mkPos 0 0 true) 0) = None /\
   checkHit (cell_col (mkPos 0 0 true) 0) (cell_row (mkPos 0 0 true) 0) hit_demo = Ok true /\
   (forall l, l ∈ hits (demo_ship 1) -> isHit (space_of hit_demo l) = false)) /\
  exists st', placeShip (mkPos 0 0 true) (demo_ship 1) hit_demo = Ok (tt, st') /\
    checkHit (cell_col (mkPos 0 0 true) 0) (cell_row (mkPos 0 0 true) 0) st' = Ok false.
Proof.
  assert (Hwf : wf hit_demo) by (apply wfb_sound; vm_compute; reflexivity).
  assert (Hg : forall j, (j < List.length (hits (demo_ship 1)))%nat ->
             in_grid (cell_row (mkPos 0 0 true) j) (cell_col (mkPos 0 0 true) j)).
  { intros j Hj.
    assert (Hlen : List.length (hits (demo_ship 1)) = 1%nat) by (vm_compute; reflexivity).
    rewrite Hlen in Hj. assert (j = 0%nat) as -> by lia.
    unfold in_grid, cell_row, cell_col, and_num; simpl; lia. }
  assert (Hi : (0 < List.length (hits (demo_ship 1)))%nat) by (vm_compute; lia).
  assert (Ho : occ hit_demo (cell_row (mkPos 0 0 true) 0) (cell_col (mkPos 0 0 true) 0) = None)
    by (vm_compute; reflexivity).
  assert (Hh : checkHit (cell_col (mkPos 0 0 true) 0) (cell_row (mkPos 0 0 true) 0) hit_demo = Ok true)
    by (vm_compute; reflexivity).
  assert (Hu : forall l, l ∈ hits (demo_ship 1) -> isHit (space_of hit_demo l) = false)
    by (apply Forall_forall; apply (proj1 (bool_decide_eq_true _)); vm_compute; reflexivity).
  split; [exact (conj Hwf (conj Hg (conj Hi (conj Ho (conj Hh Hu)))))|].
  exact (placeShip_discards_hit hit_demo (mkPos 0 0 true) (demo_ship 1) 0 Hwf Hg Hi Ho Hh Hu).
Defined.

(** ** The aliasing of cells and segments *)

Lemma cell_ref_refs st st' c r :
  board_refs (board st) = board_refs (board st') -> rows st = rows st' ->
  cell_ref st c r = cell_ref st' c r.
Proof. intros Hb Hr. unfold cell_ref, board_at, row_of. by rewrite Hb, Hr. Qed.

Lemma aliased_view st st' p ship :
  board_refs (board st) = board_refs (board st') -> rows st = rows st' ->
  spaces st = spaces st' -> aliased st p ship -> aliased st' p ship.
Proof.
  intros Hb Hr Hs [(Hlen & Hnd & Hrows) Hal]. split.
  - unfold wf, row_of in *. rewrite <- Hb, <- Hr. done.
  - intros i l Hl. rewrite <- (cell_ref_refs st st') by done.
    unfold space_of. rewrite <- Hs. by apply Hal.
Qed.

Lemma receiveAttack_inv c r res st st' : receiveAttack c r st = Ok (res, st') ->
  exists l, st' = set_spaces st (<[l := Space_hit (space_of st l)]> (spaces st)).
Proof.
  unfold receiveAttack. cbv zeta.
  destruct (cell_ref st c r) as [l|e] eqn:E; [|discriminate].
  rewrite cell_ref_set_spaces, E. intros [= _ <-]. eauto.
Qed.

Lemma aliased_receiveAttack c r res st st' p ship :
  aliased st p ship -> receiveAttack c r st = Ok (res, st') -> aliased st' p ship.
Proof.
  intros [Hwf Hal] H. destruct (receiveAttack_inv c r res st st' H) as [l0 ->].
  split; [exact Hwf|]. intros i l Hl. rewrite cell_ref_set_spaces.
  destruct (Hal i l Hl) as [Hc Hpar]. split; [done|].
  unfold space_of at 1. simpl. destruct (decide (l = l0)) as [->|Hne].
  - by rewrite lookup_insert_eq.
  - by rewrite lookup_insert_ne.
Qed.

Lemma findValidPosition_inv rnd ship st o st' :
  findValidPosition rnd ship st = Ok (o, st') ->
  same_view st st' /\ (forall p, o = Some p -> canPlace st p ship = Ok true).
Proof.
  pose proof (findValidPosition_loop_spec rnd ship maxIterations st) as H.
  unfold findValidPosition.
  destruct (findValidPosition_loop rnd ship maxIterations st) as [[[p|] st'']|e];
    intros E; inversion E; subst.
  - destruct H as (i & _ & _ & Hc & _ & ->). split; [done|]. by intros ? [= <-].
  - destruct H as [_ ->]. split; [done|]. done.
Qed.

Lemma free9_center st r c : free9 st r c = true -> occ st r c = None.
Proof.
  unfold free9, inspected. cbn [forallb]. destruct (occ st r c); [discriminate|done].
Qed.

Lemma aliased_placeShip st st' P ship p t :
  aliased st P ship ->
  (forall j, (j < List.length (hits t))%nat ->
     in_grid (cell_row p j) (cell_col p j) /\ occ st (cell_row p j) (cell_col p j) = None) ->
  placeShip p t st = Ok (tt, st') -> aliased st' P ship /\ board st' = board st.
Proof.
  intros [Hwf Hal] Hj Hp.
  destruct (placeShip_spec st p t Hwf (fun j Hj' => proj1 (Hj j Hj')))
    as (R & Hp' & Hwf' & _ & Hframe).
  rewrite Hp' in Hp. injection Hp as <-. split; [|done]. split; [done|].
  intros i l Hl. destruct (Hal i l Hl) as [Hc Hpar]. split; [|exact Hpar].
  rewrite Hframe; [done|]. intros j Hjl Heq. destruct (Hj j Hjl) as [_ Hocc].
  injection Heq as Ec Er. rewrite <- Ec, <- Er, occ_cell_ref, Hc in Hocc.
  destruct Hpar as [x Hx]. congruence.
Qed.

Lemma aliased_autoPlaceShips_loop rnd b P ship ships : forall st st' res,
  board_refs b = board_refs (board st) -> aliased st P ship ->
  autoPlaceShips_loop rnd b ships st = Ok (res, st') -> aliased st' P ship.
Proof.
  induction ships as [|t ships IH]; intros st st' res Hb Hal.
  - intros [= _ <-]. done.
  - cbn [autoPlaceShips_loop]. unfold bindM at 1.
    destruct (findValidPosition rnd t st) as [[o st1]|e] eqn:Ef; [|discriminate].
    destruct (findValidPosition_inv rnd t st o st1 Ef) as [Hv Hok].
    assert (Hal1 : aliased st1 P ship).
    { destruct Hv as (Hb1 & Hr1 & Hs1). apply (aliased_view st); [by rewrite Hb1|done..]. }
    assert (Hb' : board_refs b = board_refs (board st1)) by (destruct Hv as [<- _]; done).
    destruct o as [p|].
    + unfold bindM. destruct (placeShip p t st1) as [[[] st2]|e] eqn:Ep; [|discriminate].
      assert (Hcp : canPlace st1 p t = Ok true)
        by (rewrite <- (canPlace_view st st1) by done; by apply Hok).
      destruct (canPlace_true st1 p t (proj1 Hal1) Hcp) as (_ & _ & Hcells).
      destruct (aliased_placeShip st1 st2 P ship p t Hal1) as [Hal2 Hb2];
        [intros j Hj; destruct (Hcells j Hj) as [Hg Hf]; split; [done|by apply free9_center]
        |done|].
      apply (IH st2); [by rewrite Hb2|done].
    + intros [= _ <-]. apply (aliased_view st1); [done|done|done|exact Hal1].
Qed.

Lemma later_op_aliased st st' P ship :
  later_op st st' -> aliased st P ship -> aliased st' P ship.
Proof.
  intros Hop Hal. destruct Hop as [c r res st st' H|rnd t o st st' H|rnd ts b st st' H|p t st st' Hj H].
  - by eapply aliased_receiveAttack.
  - destruct (findValidPosition_inv rnd t st o st' H) as [(Hb & Hr & Hs) _].
    apply (aliased_view st); [by rewrite Hb|done..].
  - apply (aliased_autoPlaceShips_loop rnd (spread (board st)) P ship ts st st' b);
      [reflexivity|exact Hal|exact H].
  - by destruct (aliased_placeShip st st' P ship p t Hal Hj H).
Qed.

Lemma rtc_later_op_aliased st st' P ship :
  rtc later_op st st' -> aliased st P ship -> aliased st' P ship.
Proof.
  induction 1 as [|x y z Hxy _ IH]; [done|]. intros Hal.
  apply IH. by eapply later_op_aliased.
Qed.

(** C9: after [placeShip(P, ship)] on a board (the ship's segments having
    their [parent] set), each cell [i] of the placement is the ship's
    segment object [hits[i]] itself, and this lasts through any sequence of
    later [receiveAttack], [findValidPosition], [autoPlaceShips] (whatever
    its outcome) and [placeShip] on in-grid, unoccupied targets: at every
    point, [receiveAttack] on the cell returns the segment's [parent] and
    calls [hit()] on the segment [hits[i]] itself, changing no other
    [Space]. *)
Theorem placeShip_aliasing (st0 st1 : State) (pos : Position) (ship : Ship) :
  wf st0 ->
  (forall i, (i < List.length (hits ship))%nat -> in_grid (cell_row pos i) (cell_col pos i)) ->
  (forall l, l ∈ hits ship -> is_Some (parent (space_of st0 l))) ->
  placeShip pos ship st0 = Ok (tt, st1) ->
  forall st2, rtc later_op st1 st2 ->
  forall i l, hits ship !! i = Some l ->
    cell_ref st2 (cell_col pos i) (cell_row pos i) = Ok l /\
    receiveAttack (cell_col pos i) (cell_row pos i) st2 =
      Ok (parent (space_of st2 l),
          set_spaces st2 (<[l := Space_hit (space_of st2 l)]> (spaces st2))).
Proof.
  intros Hwf Hg Hseg Hp st2 Hrtc i l Hl.
  destruct (placeShip_spec st0 pos ship Hwf Hg) as (R & Hp' & Hwf' & Hcells & _).
  rewrite Hp' in Hp. injection Hp as <-.
  assert (Hal : aliased (set_rows st0 R) pos ship).
  { split; [done|]. intros i' l' Hl'. split; [by apply Hcells|].
    apply Hseg. by eapply list_elem_of_lookup_2. }
  destruct (rtc_later_op_aliased _ _ _ _ Hrtc Hal) as [_ Hal2].
  destruct (Hal2 i l Hl) as [Hc _]. split; [done|]. by apply receiveAttack_at.
Qed.

Lemma placeShip_aliasing_witness :
  (wf (demo_state 1) /\
   (forall i, (i < List.length (hits (demo_ship 1)))%nat ->
      in_grid (cell_row (mkPos 0 0 true) i) (cell_col (mkPos 0 0 true) i)) /\
   (forall l, l ∈ hits (demo_ship 1) -> is_Some (parent (space_of (demo_state 1) l))) /\
   placeShip (mkPos 0 0 true) (demo_ship 1) (demo_state 1) = Ok (tt, placed_demo)) /\
  (forall i l, hits (demo_ship 1) !! i = Some l ->
    cell_ref placed_demo (cell_col (mkPos 0 0 true) i) (cell_row (mkPos 0 0 true) i) = Ok l /\
    receiveAttack (cell_col (mkPos 0 0 true) i) (cell_row (mkPos 0 0 true) i) placed_demo =
      Ok (parent (space_of placed_demo l),
          set_spaces placed_demo (<[l := Space_hit (space_of placed_demo l)]> (spaces placed_demo)))).
Proof.
  assert (Hwf : wf (demo_state 1)) by (apply wfb_sound; vm_compute; reflexivity).
  assert (Hg : forall i, (i < List.length (hits (demo_ship 1)))%nat ->
             in_grid (cell_row (mkPos 0 0 true) i) (cell_col (mkPos 0 0 true) i)).
  { intros j Hj.
    assert (Hlen : List.length (hits (demo_ship 1)) = 1%nat) by (vm_compute; reflexivity).
    rewrite Hlen in Hj. assert (j = 0%nat) as -> by lia.
    unfold in_grid, cell_row, cell_col, and_num; simpl; lia. }
  assert (Hseg : forall l, l ∈ hits (demo_ship 1) -> is_Some (parent (space_of (demo_state 1) l)))
    by segments_have_parent.
  assert (Hp : placeShip (mkPos 0 0 true) (demo_ship 1) (demo_state 1) = Ok (tt, placed_demo))
    by (vm_compute; reflexivity).
  split; [exact (conj Hwf (conj Hg (conj Hseg Hp)))|].
  exact (placeShip_aliasing (demo_state 1) placed_demo (mkPos 0 0 true) (demo_ship 1)
           Hwf Hg Hseg Hp placed_demo (rtc_refl _ _)).
Defined.

(** ** The rollback of [autoPlaceShips] *)

(** C1: the rollback is not a restore. On a fresh board with the ships
    [new Ship(1)] and [new Ship(16)], and [Math.random] returning 0,
    [autoPlaceShips] places the first ship at (0, 0), finds no position for
    the second and returns false; the cell (0, 0), empty before the call,
    still holds the first ship, since the backup [{ ...this.board }] shares
    the row arrays that [placeShip] wrote into. *)
Theorem autoPlaceShips_keeps_placed :
  occ two_ships_demo.2 0 0 = None /\
  autoPlaceShips zero_rnd two_ships_demo.1 two_ships_demo.2 = Ok (false, after_failed_auto) /\
  occ after_failed_auto 0 0 = Some (ship_id (hd (mkShip 0%nat []) two_ships_demo.1)).
Proof.
  split; [vm_compute; reflexivity|]. split; vm_compute; reflexivity.
Qed.

(** C8: after that failed [autoPlaceShips], [this.board] is the plain
    object [backupBoard], which has no [forEach]: [resetBoard] throws a
    [TypeError] and the occupied cell (0, 0) cannot be cleared. *)
Theorem resetBoard_after_failed_auto :
  autoPlaceShips zero_rnd two_ships_demo.1 two_ships_demo.2 = Ok (false, after_failed_auto) /\
  occ after_failed_auto 0 0 <> None /\
  resetBoard after_failed_auto = Throw TypeError.
Proof.
  split; [vm_compute; reflexivity|]. split; [vm_compute; discriminate|].
  vm_compute; reflexivity.
Qed.

(** ** Further properties of the board operations *)
Lemma all_cells_spec f r c : all_cells f = true -> in_grid r c -> f r c = true.
Proof.
  unfold all_cells, in_grid. rewrite forallb_forall. intros H [Hr Hc].
  assert (Hr' : In r (seqZ 0 15)) by (apply list_elem_of_In, elem_of_seqZ; lia).
  specialize (H r Hr'). rewrite forallb_forall in H. apply H.
  apply list_elem_of_In, elem_of_seqZ; lia.
Qed.

(** X1: the constructor builds a well-formed board: [this.board] is an
    array of 15 distinct row arrays of 15 cells, every cell holds an empty,
    unhit [Space] ([occ] is [None], [checkHit] is false), and no two cells
    share a [Space] object. *)
Theorem Gameboard_new_cells :
  wf fresh_board /\ (exists rs, board fresh_board = BArray rs) /\
  (forall r c, in_grid r c -> occ fresh_board r c = None /\ checkHit c r fresh_board = Ok false) /\
  (forall r c r' c' l, in_grid r c -> in_grid r' c' ->
     cell_ref fresh_board c r = Ok l -> cell_ref fresh_board c' r' = Ok l -> r = r' /\ c = c').
Proof.
  split; [apply wfb_sound; vm_compute; reflexivity|].
  split; [destruct (board fresh_board) eqn:E; [eauto|vm_compute in E; discriminate]|]. split.
  - intros r c Hg.
    assert (H : all_cells (fun r c => match occ fresh_board r c, checkHit c r fresh_board with
                                      | None, Ok false => true | _, _ => false end) = true)
      by (vm_compute; reflexivity).
    pose proof (all_cells_spec _ r c H Hg) as Hrc. cbv beta in Hrc.
    clear H. destruct (occ fresh_board r c) as [s|]; [discriminate|].
    destruct (checkHit c r fresh_board) as [[]|]; [discriminate|split; reflexivity|discriminate].
  - intros r c r' c' l Hg Hg' H1 H2.
    assert (H : all_cells (fun r c => all_cells (fun r' c' =>
                  implb (same_space fresh_board r c r' c') (Z.eqb r r' && Z.eqb c c'))) = true)
      by (vm_compute; reflexivity).
    pose proof (all_cells_spec _ r' c' (all_cells_spec _ r c H Hg) Hg') as Hrc.
    cbv beta in Hrc. unfold same_space in Hrc. rewrite H1, H2, Nat.eqb_refl in Hrc. cbn [implb] in Hrc.
    clear H. apply andb_prop in Hrc as [E1 E2]. apply Z.eqb_eq in E1, E2. exact (conj E1 E2).
Qed.

Lemma reset_row_spec i a js : forall st,
  wf st -> 0 <= i < 15 -> (forall j, j ∈ js -> (j < 15)%nat) -> row_ok a ->
  exists st', reset_row i a js st = Ok (tt, st') /\ wf st' /\ board st' = board st /\
    (next_loc st <= next_loc st')%nat /\
    (forall l : loc, (l < next_loc st)%nat -> spaces st' !! l = spaces st !! l) /\
    (forall j, j ∈ js -> exists l : loc, (next_loc st <= l < next_loc st')%nat /\
       cell_ref st' (Z.of_nat j) i = Ok l /\ spaces st' !! l = Some newSpace) /\
    (forall c r, (forall j, j ∈ js -> (c, r) <> (Z.of_nat j, i)) -> cell_ref st' c r = cell_ref st c r).
Proof.
  induction js as [|j js IH]; intros st Hwf Hi Hjs Ha; cbn [reset_row].
  - exists st. split; [done|]. split; [done|]. split; [done|]. split; [lia|].
    split; [done|]. split; [|done]. intros j Hj. by apply elem_of_nil in Hj.
  - assert (Hj : (j < 15)%nat) by (apply Hjs; by apply elem_of_cons; left).
    destruct (proj2 (proj2 Ha (Z.of_nat j)) ltac:(lia)) as [x Hx]. rewrite Hx.
    set (n0 := next_loc st).
    set (st1 := mkState (board st) (rows st) (<[n0 := newSpace]> (spaces st)) (S n0) (rng st)).
    assert (Hwf1 : wf st1) by exact Hwf.
    destruct (write_cell_spec st1 i (Z.of_nat j) n0 Hwf1) as (R & Hw & Hwf2 & Hc2 & Hf2);
      [unfold in_grid; lia|].
    destruct (IH (set_rows st1 R) Hwf2 Hi) as (st' & Hl & Hwf' & Hb' & Hn' & Hs' & Hcells & Hframe).
    { intros j' Hj'. apply Hjs. by apply elem_of_cons; right. }
    { done. }
    exists st'. unfold bindM, alloc. fold n0. fold st1. rewrite Hw, Hl.
    simpl in Hn', Hb'. split; [done|]. split; [done|]. split; [done|]. split; [lia|].
    split; [|split].
    + intros l Hl'. rewrite Hs' by (simpl; lia). simpl. rewrite lookup_insert_ne; [done|lia].
    + intros j' Hj'. destruct (decide (j' ∈ js)) as [Hin|Hnin].
      * destruct (Hcells j' Hin) as (l & Hlb & Hcl & Hsl). exists l. split; [simpl in Hlb; lia|done].
      * apply elem_of_cons in Hj' as [->|]; [|done].
        exists n0. split; [lia|]. split.
        -- rewrite Hframe; [done|]. intros j'' Hj'' [= E]. apply Hnin.
           by replace j with j'' by lia.
        -- rewrite Hs' by (simpl; lia). simpl. by rewrite lookup_insert_eq.
    + intros c r Hne. rewrite Hframe, Hf2.
      * reflexivity.
      * apply Hne. by apply elem_of_cons; left.
      * intros j'' Hj''. apply Hne. by apply elem_of_cons; right.
Qed.

Lemma reset_rows_spec rs0 rs : forall k st,
  wf st -> board st = BArray rs0 -> drop k rs0 = rs ->
  exists st', reset_rows k rs st = Ok (tt, st') /\ wf st' /\ board st' = board st /\
    (next_loc st <= next_loc st')%nat /\
    (forall l : loc, (l < next_loc st)%nat -> spaces st' !! l = spaces st !! l) /\
    (forall r c, Z.of_nat k <= r < 15 -> 0 <= c < 15 -> exists l : loc, (l < next_loc st')%nat /\
       cell_ref st' c r = Ok l /\ spaces st' !! l = Some newSpace) /\
    (forall r c, r < Z.of_nat k -> cell_ref st' c r = cell_ref st c r).
Proof.
  induction rs as [|rr rs IH]; intros k st Hwf Hb Hd; cbn [reset_rows].
  - exists st. split; [done|]. split; [done|]. split; [done|]. split; [lia|].
    split; [done|]. split; [|done].
    intros r c Hr _. exfalso. destruct Hwf as [Hlen _]. rewrite Hb in Hlen. simpl in Hlen.
    assert (List.length (drop k rs0) = 0%nat) by (by rewrite Hd). rewrite length_drop in H. lia.
  - pose proof Hwf as (Hlen & Hnd & Hrows).
    assert (Hk : rs0 !! k = Some rr).
    { rewrite <- (Nat.add_0_r k), <- lookup_drop, Hd. done. }
    assert (Hrr : board_at (board st) (Z.of_nat k) = Some rr).
    { unfold board_at. rewrite Hb. simpl. rewrite Nat2Z.id. by destruct (Z.leb_spec 0 (Z.of_nat k)); [|lia]. }
    assert (Hk15 : (k < 15)%nat).
    { apply lookup_lt_Some in Hk. rewrite Hb in Hlen. simpl in Hlen. lia. }
    assert (Hok : row_ok (row_of st rr)).
    { apply Hrows. by apply board_at_Some in Hrr as [? _]. }
    destruct (reset_row_spec (Z.of_nat k) (row_of st rr) (seq 0 (Z.to_nat (length (row_of st rr)))) st Hwf)
      as (st2 & Hr2 & Hwf2 & Hb2 & Hn2 & Hs2 & Hc2 & Hf2); [lia| |done|].
    { intros j Hj. apply elem_of_seq in Hj. destruct Hok as [Hl _]. rewrite Hl in Hj. simpl in Hj. lia. }
    destruct (IH (S k) st2 Hwf2) as (st' & Hl & Hwf' & Hb' & Hn' & Hs' & Hc' & Hf').
    { by rewrite Hb2. }
    { replace (S k) with (k + 1)%nat by lia. rewrite <- drop_drop, Hd. done. }
    exists st'. unfold bindM. rewrite Hr2, Hl.
    split; [done|]. split; [done|]. split; [by rewrite Hb', Hb2|]. split; [lia|]. split.
    + intros l Hl'. rewrite Hs', Hs2; [done|lia|lia].
    + split.
      * intros r c Hr Hc. destruct (decide (r = Z.of_nat k)) as [->|Hne].
        -- destruct (Hc2 (Z.to_nat c)) as (l & Hlb & Hcl & Hsl).
           { apply elem_of_seq. destruct Hok as [Hlr _]. rewrite Hlr. simpl. lia. }
           exists l. rewrite Z2Nat.id in Hcl by lia.
           split; [lia|]. split.
           ++ rewrite Hf'; [done|lia].
           ++ rewrite Hs'; [done|lia].
        -- apply Hc'; [lia|done].
      * intros r c Hr. rewrite Hf' by lia. apply Hf2. intros j _ [= _ E]. lia.
Qed.

(** X2: on a board that is still an array, [resetBoard] succeeds, keeps the
    same row arrays, and leaves every cell holding a new [Space]: no cell is
    occupied or hit any more; the [Space] objects that existed before are
    untouched (a ship keeps its segments and their hit state). *)
Theorem resetBoard_clears (st : State) (rs : list loc) :
  wf st -> board st = BArray rs ->
  exists st', resetBoard st = Ok (tt, st') /\ wf st' /\ board st' = board st /\
    (forall r c, in_grid r c -> occ st' r c = None /\ checkHit c r st' = Ok false) /\
    (forall l : loc, (l < next_loc st)%nat -> spaces st' !! l = spaces st !! l).
Proof.
  intros Hwf Hb. unfold resetBoard. rewrite Hb.
  destruct (reset_rows_spec rs rs 0 st Hwf Hb eq_refl)
    as (st' & Hl & Hwf' & Hb' & _ & Hs & Hc & _).
  exists st'. split; [done|]. split; [done|]. split; [by rewrite Hb'|]. split; [|done].
  intros r c [Hr Hc']. destruct (Hc r c ltac:(lia) Hc') as (l & _ & Hcl & Hsl).
  rewrite occ_cell_ref. unfold checkHit. rewrite Hcl. cbv beta iota. unfold space_of. rewrite Hsl. split; reflexivity.
Qed.

Lemma resetBoard_clears_witness :
  (wf placed_demo /\ board placed_demo = BArray placed_rows) /\
  exists st', resetBoard placed_demo = Ok (tt, st') /\ wf st' /\ board st' = board placed_demo /\
    (forall r c, in_grid r c -> occ st' r c = None /\ checkHit c r st' = Ok false) /\
    (forall l : loc, (l < next_loc placed_demo)%nat -> spaces st' !! l = spaces placed_demo !! l).
Proof.
  assert (Hwf : wf placed_demo) by (apply wfb_sound; vm_compute; reflexivity).
  assert (Hb : board placed_demo = BArray placed_rows) by (vm_compute; reflexivity).
  exact (conj (conj Hwf Hb) (resetBoard_clears placed_demo placed_rows Hwf Hb)).
Defined.

Lemma findValidPosition_next_loc rnd t st o st1 :
  findValidPosition rnd t st = Ok (o, st1) -> next_loc st1 = next_loc st.
Proof.
  intros Ef. pose proof (findValidPosition_loop_spec rnd t maxIterations st) as H.
  unfold findValidPosition in Ef. rewrite Ef in H.
  destruct o; [destruct H as (? & _ & _ & _ & _ & ->)|destruct H as [_ ->]]; done.
Qed.

Lemma autoPlaceShips_loop_ok rnd b ships : forall st,
  wf st -> (forall n, 0 <= rnd n < 2 ^ 53) -> board_refs b = board_refs (board st) ->
  exists res st', autoPlaceShips_loop rnd b ships st = Ok (res, st') /\ wf st' /\
    (res = true -> board st' = board st) /\ (res = false -> board st' = b) /\
    spaces st' = spaces st /\ next_loc st' = next_loc st.
Proof.
  induction ships as [|t ships IH]; intros st Hwf Hrnd Hb.
  - exists true, st. done.
  - cbn [autoPlaceShips_loop]. unfold bindM at 1.
    destruct (findValidPosition_ok rnd t st Hwf Hrnd) as (o & st1 & Ef). rewrite Ef.
    destruct (findValidPosition_inv rnd t st o st1 Ef) as [(Hb1 & Hr1 & Hs1) Hok].
    assert (Hwf1 : wf st1) by (unfold wf, row_of in *; by rewrite <- Hb1, <- Hr1).
    pose proof (findValidPosition_next_loc rnd t st o st1 Ef) as Hn1.
    destruct o as [p|].
    + assert (Hcp : canPlace st1 p t = Ok true)
        by (rewrite <- (canPlace_view st st1) by done; by apply Hok).
      destruct (canPlace_true st1 p t Hwf1 Hcp) as (_ & _ & Hcells).
      destruct (placeShip_spec st1 p t Hwf1 (fun i Hi => proj1 (Hcells i Hi)))
        as (R & Hp & Hwf2 & _ & _).
      unfold bindM. rewrite Hp.
      destruct (IH (set_rows st1 R) Hwf2 Hrnd) as (res & st' & Hl & Hwf' & Ht & Hf & Hsp & Hn);
        [simpl; by rewrite <- Hb1|].
      exists res, st'. split; [done|]. split; [done|].
      split; [intros E; rewrite (Ht E); simpl; done|]. split; [done|].
      rewrite Hsp, Hn. simpl. by rewrite <- Hs1, Hn1.
    + exists false, (set_board st1 b). split; [done|]. split.
      * destruct Hwf1 as (Hlen & Hnd & Hrows). unfold wf. simpl. rewrite Hb, Hb1.
        split; [done|]. split; [done|]. exact Hrows.
      * split; [done|]. split; [done|]. simpl. by rewrite <- Hs1, Hn1.
Qed.

(** X3: on a well-formed board and with draws in [0, 2^53), [autoPlaceShips]
    never throws: it returns true with the board container unchanged, or false
    with [this.board] replaced by the spread copy [{ ...this.board }] of the
    same rows; it never changes a [Space] object. *)
Theorem autoPlaceShips_total (rnd : RandomSource) (ships : list Ship) (st : State) :
  wf st -> (forall n, 0 <= rnd n < 2 ^ 53) ->
  exists res st', autoPlaceShips rnd ships st = Ok (res, st') /\ wf st' /\
    (res = true -> board st' = board st) /\
    (res = false -> board st' = BObject (board_refs (board st))) /\
    spaces st' = spaces st.
Proof.
  intros Hwf Hrnd. unfold autoPlaceShips.
  destruct (autoPlaceShips_loop_ok rnd (spread (board st)) ships st Hwf Hrnd)
    as (res & st' & Hl & Hwf' & Ht & Hf & Hs & _); [reflexivity|].
  exists res, st'. done.
Qed.

Lemma autoPlaceShips_total_witness :
  (wf two_ships_demo.2 /\ (forall n, 0 <= zero_rnd n < 2 ^ 53)) /\
  exists res st', autoPlaceShips zero_rnd two_ships_demo.1 two_ships_demo.2 = Ok (res, st') /\ wf st' /\
    (res = true -> board st' = board two_ships_demo.2) /\
    (res = false -> board st' = BObject (board_refs (board two_ships_demo.2))) /\
    spaces st' = spaces two_ships_demo.2.
Proof.
  assert (Hwf : wf two_ships_demo.2) by (apply wfb_sound; vm_compute; reflexivity).
  assert (Hr : forall n, 0 <= zero_rnd n < 2 ^ 53) by (intros n; unfold zero_rnd; lia).
  exact (conj (conj Hwf Hr) (autoPlaceShips_total zero_rnd two_ships_demo.1 two_ships_demo.2 Hwf Hr)).
Defined.

Lemma sep_of_canPlace st q s p t :
  aliased st q s -> canPlace st p t = Ok true -> separated q s p t.
Proof.
  intros [Hwf Hal] Hcp i j Hi Hj.
  destruct (canPlace_true st p t Hwf Hcp) as (_ & _ & Hc).
  destruct (Hc j Hj) as [_ Hf]. rewrite free9_iff in Hf.
  destruct (lookup_lt_is_Some_2 (hits s) i Hi) as [l Hl].
  destruct (Hal i l Hl) as [Hcr [x Hx]].
  destruct (Z_lt_le_dec 1 (Z.abs (cell_row q i - cell_row p j))) as [|H1]; [by left|].
  destruct (Z_lt_le_dec 1 (Z.abs (cell_col q i - cell_col p j))) as [|H2]; [by right|].
  exfalso.
  specialize (Hf (cell_row q i - cell_row p j) (cell_col q i - cell_col p j)
                 ltac:(lia) ltac:(lia)).
  replace (cell_row p j + (cell_row q i - cell_row p j)) with (cell_row q i) in Hf by lia.
  replace (cell_col p j + (cell_col q i - cell_col p j)) with (cell_col q i) in Hf by lia.
  rewrite occ_cell_ref, Hcr in Hf. congruence.
Qed.

Lemma autoPlaceShips_loop_sep rnd b ships : forall st st',
  wf st -> board_refs b = board_refs (board st) ->
  (forall t, t ∈ ships -> forall l, l ∈ hits t -> is_Some (parent (space_of st l))) ->
  autoPlaceShips_loop rnd b ships st = Ok (true, st') ->
  board st' = board st /\ spaces st' = spaces st /\
  exists ps, List.length ps = List.length ships /\
    forall k t p, ships !! k = Some t -> ps !! k = Some p ->
      (forall i, (i < List.length (hits t))%nat -> in_grid (cell_row p i) (cell_col p i)) /\
      aliased st' p t /\
      (forall q s, aliased st q s -> separated q s p t) /\
      (forall k' t' p', (k' < k)%nat -> ships !! k' = Some t' -> ps !! k' = Some p' ->
         separated p' t' p t).
Proof.
  induction ships as [|t ships IH]; intros st st' Hwf Hb Hseg.
  - intros [= <-]. split; [done|]. split; [done|]. exists []. split; [done|].
    intros k t p Hk. by rewrite lookup_nil in Hk.
  - cbn [autoPlaceShips_loop]. unfold bindM at 1.
    destruct (findValidPosition rnd t st) as [[o st1]|e] eqn:Ef; [|discriminate].
    destruct (findValidPosition_inv rnd t st o st1 Ef) as [Hv Hok].
    pose proof Hv as (Hb1 & Hr1 & Hs1).
    assert (Hwf1 : wf st1) by (unfold wf, row_of in *; by rewrite <- Hb1, <- Hr1).
    destruct o as [p|]; [|discriminate].
    assert (Hcp : canPlace st1 p t = Ok true)
      by (rewrite <- (canPlace_view st st1) by done; by apply Hok).
    destruct (canPlace_true st1 p t Hwf1 Hcp) as (_ & _ & Hcells).
    destruct (placeShip_spec st1 p t Hwf1 (fun i Hi => proj1 (Hcells i Hi)))
      as (R & Hp & Hwf2 & Hset & _).
    unfold bindM. rewrite Hp. intros Hl.
    set (st2 := set_rows st1 R) in *.
    assert (Hs2 : spaces st2 = spaces st) by (simpl; by rewrite <- Hs1).
    assert (Hfree : forall j, (j < List.length (hits t))%nat ->
              in_grid (cell_row p j) (cell_col p j) /\ occ st1 (cell_row p j) (cell_col p j) = None).
    { intros j Hj. destruct (Hcells j Hj) as [Hg Hf]. split; [done|]. by apply free9_center. }
    assert (Hup : forall q s, aliased st q s -> aliased st2 q s).
    { intros q s Has.
      assert (Has1 : aliased st1 q s) by (apply (aliased_view st); [by rewrite Hb1|done..]).
      by destruct (aliased_placeShip st1 st2 q s p t Has1 Hfree Hp). }
    destruct (IH st2 st') as (Hb' & Hs' & ps & Hlen & Hps).
    { done. }
    { simpl. by rewrite <- Hb1. }
    { intros t' Ht' l Hl'. unfold space_of. rewrite Hs2. apply (Hseg t'); [by apply elem_of_cons; right|done]. }
    { done. }
    assert (Hal2 : aliased st2 p t).
    { split; [done|]. intros i l Hil. split; [by apply Hset|].
      unfold space_of. rewrite Hs2. apply (Hseg t); [by apply elem_of_cons; left|].
      by eapply list_elem_of_lookup_2. }
    split; [simpl in Hb'; by rewrite Hb'|]. split; [by rewrite Hs', Hs2|].
    exists (p :: ps). split; [simpl; by rewrite Hlen|].
    intros [|k] t0 p0 Hk Hpk; simpl in Hk, Hpk.
    + injection Hk as <-. injection Hpk as <-.
      split; [intros i Hi; by apply Hcells|]. split.
      * apply (aliased_autoPlaceShips_loop rnd b p t ships st2 st' true); [|done|done].
        simpl. by rewrite <- Hb1.
      * split; [|intros k' t' p' Hk'; lia].
        intros q s Has. apply (sep_of_canPlace st1); [|done].
        apply (aliased_view st); [by rewrite Hb1|done..].
    + destruct (Hps k t0 p0 Hk Hpk) as (Hg & Has & Hsep & Hearly).
      split; [done|]. split; [done|]. split.
      * intros q s Has0. by apply Hsep, Hup.
      * intros [|k'] t' p' Hk' Ht' Hp'; simpl in Ht', Hp'.
        -- injection Ht' as <-. injection Hp' as <-. by apply Hsep.
        -- apply (Hearly k'); [lia|done|done].
Qed.

(** X4: when [autoPlaceShips] returns true (all segments having a parent),
    each ship got a position whose cells lie on the grid and hold the ship's
    own segments afterwards, and which keeps more than one row or column away
    from every ship already on the board and from every ship placed before it
    in the same call. *)
Theorem autoPlaceShips_separated (rnd : RandomSource) (ships : list Ship) (st st' : State) :
  wf st ->
  (forall t, t ∈ ships -> forall l, l ∈ hits t -> is_Some (parent (space_of st l))) ->
  autoPlaceShips rnd ships st = Ok (true, st') ->
  board st' = board st /\
  exists ps, List.length ps = List.length ships /\
    forall k t p, ships !! k = Some t -> ps !! k = Some p ->
      (forall i, (i < List.length (hits t))%nat -> in_grid (cell_row p i) (cell_col p i)) /\
      (forall i l, hits t !! i = Some l -> cell_ref st' (cell_col p i) (cell_row p i) = Ok l) /\
      (forall q s, aliased st q s -> separated q s p t) /\
      (forall k' t' p', (k' < k)%nat -> ships !! k' = Some t' -> ps !! k' = Some p' ->
         separated p' t' p t).
Proof.
  intros Hwf Hseg H. unfold autoPlaceShips in H.
  destruct (autoPlaceShips_loop_sep rnd (spread (board st)) ships st st' Hwf eq_refl Hseg H)
    as (Hb & _ & ps & Hlen & Hps).
  split; [done|]. exists ps. split; [done|].
  intros k t p Hk Hp. destruct (Hps k t p Hk Hp) as (Hg & [_ Hal] & Hsep & Hearly).
  split; [done|]. split; [|done].
  intros i l Hl. by destruct (Hal i l Hl).
Qed.

Lemma autoPlaceShips_separated_witness :
  (wf pair_ships_demo.2 /\
   (forall t, t ∈ pair_ships_demo.1 -> forall l, l ∈ hits t -> is_Some (parent (space_of pair_ships_demo.2 l))) /\
   autoPlaceShips lcg_rnd pair_ships_demo.1 pair_ships_demo.2 = Ok (true, auto_demo)) /\
  board auto_demo = board pair_ships_demo.2 /\
  exists ps, List.length ps = List.length pair_ships_demo.1 /\
    forall k t p, pair_ships_demo.1 !! k = Some t -> ps !! k = Some p ->
      (forall i, (i < List.length (hits t))%nat -> in_grid (cell_row p i) (cell_col p i)) /\
      (forall i l, hits t !! i = Some l -> cell_ref auto_demo (cell_col p i) (cell_row p i) = Ok l) /\
      (forall q s, aliased pair_ships_demo.2 q s -> separated q s p t) /\
      (forall k' t' p', (k' < k)%nat -> pair_ships_demo.1 !! k' = Some t' -> ps !! k' = Some p' ->
         separated p' t' p t).
Proof.
  assert (Hwf : wf pair_ships_demo.2) by (apply wfb_sound; vm_compute; reflexivity).
  assert (Hall : Forall (fun t => Forall (fun l => is_Some (parent (space_of pair_ships_demo.2 l))) (hits t))
                   pair_ships_demo.1)
    by (apply (proj1 (bool_decide_eq_true _)); vm_compute; reflexivity).
  assert (Hseg : forall t, t ∈ pair_ships_demo.1 -> forall l, l ∈ hits t ->
                   is_Some (parent (space_of pair_ships_demo.2 l))).
  { intros t Ht l Hl. rewrite Forall_forall in Hall. specialize (Hall t Ht).
    rewrite Forall_forall in Hall. exact (Hall l Hl). }
  assert (Hok : autoPlaceShips lcg_rnd pair_ships_demo.1 pair_ships_demo.2 = Ok (true, auto_demo))
    by (vm_compute; reflexivity).
  exact (conj (conj Hwf (conj Hseg Hok))
    (autoPlaceShips_separated lcg_rnd pair_ships_demo.1 pair_ships_demo.2 auto_demo Hwf Hseg Hok)).
Defined.

Lemma cell_ref_out st r c : wf st -> ~ in_grid r c -> cell_ref st c r = Throw TypeError.
Proof.
  intros Hwf Hg. unfold cell_ref.
  destruct (decide (0 <= r < 15)) as [Hr|Hr].
  - destruct (board_at_grid st r Hwf Hr) as (rr & -> & _ & Hrow).
    destruct (props (row_of st rr) !! c) eqn:E; [|done].
    exfalso. apply Hg. split; [done|]. apply Hrow. by rewrite E.
  - by rewrite board_at_none.
Qed.

(** X5: [receiveAttack] and [checkHit] throw a [TypeError] for every
    coordinate off the grid: there is no bounds check, and the missing row or
    cell is [undefined]. *)
Theorem receiveAttack_checkHit_out (st : State) (c r : Z) :
  wf st -> ~ in_grid r c ->
  receiveAttack c r st = Throw TypeError /\ checkHit c r st = Throw TypeError.
Proof.
  intros Hwf Hg. unfold receiveAttack, checkHit. by rewrite cell_ref_out.
Qed.

Lemma receiveAttack_checkHit_out_witness :
  (wf fresh_board /\ ~ in_grid 15 0) /\
  receiveAttack 0 15 fresh_board = Throw TypeError /\ checkHit 0 15 fresh_board = Throw TypeError.
Proof.
  assert (Hwf : wf fresh_board) by (apply wfb_sound; vm_compute; reflexivity).
  assert (Hg : ~ in_grid 15 0) by (unfold in_grid; lia).
  exact (conj (conj Hwf Hg) (receiveAttack_checkHit_out fresh_board 0 15 Hwf Hg)).
Defined.

(** X6: a successful [receiveAttack(col, row)] returns the [parent] of the
    [Space] at that cell, changes no cell's [parent], marks exactly that
    [Space] object as hit, and leaves the hit state of every other [Space]
    as it was (a cell sharing the object reads as hit too). *)
Theorem receiveAttack_effect (c r : Z) (res : option shipref) (st st' : State) :
  receiveAttack c r st = Ok (res, st') ->
  exists l0, cell_ref st c r = Ok l0 /\ res = parent (space_of st l0) /\
    (forall r' c', occ st' r' c' = occ st r' c') /\
    (forall c' r' l, cell_ref st c' r' = Ok l ->
       checkHit c' r' st' = Ok (if decide (l = l0) then true else isHit (space_of st l))).
Proof.
  unfold receiveAttack. cbv zeta.
  destruct (cell_ref st c r) as [l0|e] eqn:E; [|discriminate].
  rewrite cell_ref_set_spaces, E. intros [= <- <-].
  exists l0. split; [done|]. split; [unfold space_of; simpl; by rewrite lookup_insert_eq|]. split.
  - intros r' c'. rewrite !occ_cell_ref, cell_ref_set_spaces.
    destruct (cell_ref st c' r') as [l|]; [|done].
    unfold space_of. simpl. destruct (decide (l = l0)) as [->|Hne].
    + rewrite lookup_insert_eq. done.
    + rewrite lookup_insert_ne; done.
  - intros c' r' l Hl. unfold checkHit. rewrite cell_ref_set_spaces, Hl.
    unfold space_of at 1. simpl. destruct (decide (l = l0)) as [->|Hne].
    + by rewrite lookup_insert_eq.
    + by rewrite lookup_insert_ne.
Qed.

Lemma receiveAttack_effect_witness :
  receiveAttack 0 0 placed_demo = Ok (attack_demo.1, attack_demo.2) /\
  exists l0, cell_ref placed_demo 0 0 = Ok l0 /\ attack_demo.1 = parent (space_of placed_demo l0) /\
    (forall r' c', occ attack_demo.2 r' c' = occ placed_demo r' c') /\
    (forall c' r' l, cell_ref placed_demo c' r' = Ok l ->
       checkHit c' r' attack_demo.2 = Ok (if decide (l = l0) then true else isHit (space_of placed_demo l))).
Proof.
  assert (H : receiveAttack 0 0 placed_demo = Ok (attack_demo.1, attack_demo.2))
    by (vm_compute; reflexivity).
  exact (conj H (receiveAttack_effect 0 0 attack_demo.1 placed_demo attack_demo.2 H)).
Defined.

Lemma board_at_len b r :
  is_Some (board_at b r) <-> 0 <= r < Z.of_nat (List.length (board_refs b)).
Proof.
  unfold board_at. destruct (Z.leb_spec 0 r).
  - rewrite lookup_lt_is_Some. lia.
  - split; [intros [? H']; discriminate|lia].
Qed.

Lemma write_cell_row st r c v rr : NoDup (board_refs (board st)) ->
  board_at (board st) r = Some rr ->
  exists R, write_cell r c v st = Ok (tt, set_rows st R) /\
    cell_ref (set_rows st R) c r = Ok v /\
    forall c' r', (c', r') <> (c, r) -> cell_ref (set_rows st R) c' r' = cell_ref st c' r'.
Proof.
  intros Hnd Hrr. unfold write_cell. rewrite Hrr. eexists. split; [reflexivity|].
  set (R := <[rr := js_set (row_of st rr) c v]> (rows st)).
  assert (Hrow : forall rr', row_of (set_rows st R) rr' =
                   if decide (rr' = rr) then js_set (row_of st rr) c v else row_of st rr').
  { intros rr'. unfold row_of at 1, R. simpl. destruct (decide (rr' = rr)) as [->|Hne].
    - by rewrite lookup_insert_eq.
    - by rewrite lookup_insert_ne by done. }
  split.
  - unfold cell_ref. simpl. rewrite Hrr, Hrow, decide_True by done. simpl.
    by rewrite lookup_insert_eq.
  - intros c' r' Hne. unfold cell_ref. simpl.
    destruct (board_at (board st) r') as [rr'|] eqn:E; [|done].
    rewrite Hrow. destruct (decide (rr' = rr)) as [->|]; [|done].
    assert (r' = r) as -> by (eapply board_at_inj; [exact Hnd|exact E|exact Hrr]).
    simpl. rewrite lookup_insert_ne; [done|]. intros ->. by apply Hne.
Qed.

Lemma placeShip_loop_rows hz r c hs : forall i st,
  NoDup (board_refs (board st)) ->
  Z.of_nat (List.length (board_refs (board st))) = 15 ->
  (forall k, (k < List.length hs)%nat -> 0 <= r + and_num (negb hz) (Z.of_nat (i + k)) < 15) ->
  exists R, placeShip_loop hz r c i hs st = Ok (tt, set_rows st R) /\
    (forall k l, hs !! k = Some l ->
       cell_ref (set_rows st R) (c + and_num hz (Z.of_nat (i + k)))
                                (r + and_num (negb hz) (Z.of_nat (i + k))) = Ok l) /\
    (forall c' r', (forall k, (k < List.length hs)%nat ->
         (c', r') <> (c + and_num hz (Z.of_nat (i + k)), r + and_num (negb hz) (Z.of_nat (i + k)))) ->
       cell_ref (set_rows st R) c' r' = cell_ref st c' r').
Proof.
  induction hs as [|l hs IH]; intros i st Hnd Hlen Hg; cbn [placeShip_loop].
  - exists (rows st). split; [by destruct st|].
    split; [intros k l Hk; by rewrite lookup_nil in Hk|]. intros c' r' _. by destruct st.
  - assert (Hr0 : is_Some (board_at (board st) (r + and_num (negb hz) (Z.of_nat i)))).
    { apply board_at_len. rewrite Hlen. specialize (Hg 0%nat ltac:(simpl; lia)).
      by rewrite Nat.add_0_r in Hg. }
    destruct Hr0 as [rr Hrr].
    destruct (write_cell_row st _ (c + and_num hz (Z.of_nat i)) l rr Hnd Hrr)
      as (R1 & Hw & Hcell1 & Hframe1).
    destruct (IH (S i) (set_rows st R1) Hnd Hlen) as (R2 & Hl & Hcells & Hframe2).
    { intros k Hk. specialize (Hg (S k) ltac:(simpl; lia)). by rewrite <- Nat.add_succ_comm in Hg. }
    exists R2. unfold bindM. rewrite Hw. rewrite Hl, set_rows_twice.
    split; [done|]. rewrite set_rows_twice in Hcells, Hframe2. split.
    + intros [|k] l' Hk; simpl in Hk.
      * injection Hk as <-. rewrite Nat.add_0_r, Hframe2; [done|].
        intros k Hk' Heq. injection Heq. destruct hz; simpl; lia.
      * rewrite <- Nat.add_succ_comm. by apply Hcells.
    + intros c' r' Hne. rewrite Hframe2, Hframe1.
      * done.
      * specialize (Hne 0%nat ltac:(simpl; lia)). by rewrite Nat.add_0_r in Hne.
      * intros k Hk. rewrite Nat.add_succ_comm. apply Hne. simpl. lia.
Qed.

(** X7: [placeShip] checks no column: as long as the rows of the footprint
    exist, it succeeds and writes every segment, even at a column outside
    0..14 (the row array is then extended). *)
Theorem placeShip_no_column_check (st : State) (p : Position) (ship : Ship) :
  wf st ->
  (forall i, (i < List.length (hits ship))%nat -> 0 <= cell_row p i < 15) ->
  exists st', placeShip p ship st = Ok (tt, st') /\ board st' = board st /\
    forall i l, hits ship !! i = Some l -> cell_ref st' (cell_col p i) (cell_row p i) = Ok l.
Proof.
  intros (Hlen & Hnd & _) Hg.
  destruct (placeShip_loop_rows (horizontal p) (row p) (col p) (hits ship) 0 st Hnd)
    as (R & Hl & Hcells & _); [by rewrite Hlen|exact Hg|].
  exists (set_rows st R). split; [exact Hl|]. split; [done|]. exact Hcells.
Qed.

Lemma placeShip_no_column_check_witness :
  (wf fresh_board /\
   (forall i, (i < List.length (hits (mkShip 0%nat [1%nat; 2%nat])))%nat ->
      0 <= cell_row (mkPos 14 0 true) i < 15)) /\
  exists st', placeShip (mkPos 14 0 true) (mkShip 0%nat [1%nat; 2%nat]) fresh_board = Ok (tt, st') /\
    board st' = board fresh_board /\
    forall i l, hits (mkShip 0%nat [1%nat; 2%nat]) !! i = Some l ->
      cell_ref st' (cell_col (mkPos 14 0 true) i) (cell_row (mkPos 14 0 true) i) = Ok l.
Proof.
  assert (Hwf : wf fresh_board) by (apply wfb_sound; vm_compute; reflexivity).
  assert (Hg : forall i, (i < List.length (hits (mkShip 0%nat [1%nat; 2%nat])))%nat ->
             0 <= cell_row (mkPos 14 0 true) i < 15)
    by (intros i _; unfold cell_row, and_num; simpl; lia).
  exact (conj (conj Hwf Hg) (placeShip_no_column_check fresh_board (mkPos 14 0 true) (mkShip 0%nat [1%nat; 2%nat]) Hwf Hg)).
Defined.

Lemma placeShip_loop_row_out hz r c hs : forall i st,
  Z.of_nat (List.length (board_refs (board st))) = 15 ->
  (exists k, (k < List.length hs)%nat /\ ~ (0 <= r + and_num (negb hz) (Z.of_nat (i + k)) < 15)) ->
  placeShip_loop hz r c i hs st = Throw TypeError.
Proof.
  induction hs as [|l hs IH]; intros i st Hlen (k & Hk & Hout); cbn [placeShip_loop List.length] in *; [lia|].
  unfold bindM, write_cell.
  destruct (board_at (board st) (r + and_num (negb hz) (Z.of_nat i))) as [rr|] eqn:E; [|done].
  assert (Hin : 0 <= r + and_num (negb hz) (Z.of_nat i) < 15).
  { rewrite <- Hlen. apply board_at_len. by rewrite E. }
  destruct k as [|k]; [rewrite Nat.add_0_r in Hout; lia|].
  apply IH; [done|]. exists k. split; [lia|].
  by replace (S i + k)%nat with (i + S k)%nat by lia.
Qed.

(** X8: [placeShip] throws a [TypeError] when a row of the footprint lies
    outside 0..14, since [this.board[row]] is then [undefined]. *)
Theorem placeShip_row_out_throws (st : State) (p : Position) (ship : Ship) :
  wf st ->
  (exists i, (i < List.length (hits ship))%nat /\ ~ (0 <= cell_row p i < 15)) ->
  placeShip p ship st = Throw TypeError.
Proof.
  intros Hwf (i & Hi & Hout). unfold placeShip.
  apply placeShip_loop_row_out.
  - destruct Hwf as [Hlen _]. rewrite Hlen. reflexivity.
  - exists i. split; [done|]. exact Hout.
Qed.

Lemma placeShip_row_out_throws_witness :
  (wf fresh_board /\
   (exists i, (i < List.length (hits (mkShip 0%nat [1%nat; 2%nat])))%nat /\
      ~ (0 <= cell_row (mkPos 0 14 false) i < 15))) /\
  placeShip (mkPos 0 14 false) (mkShip 0%nat [1%nat; 2%nat]) fresh_board = Throw TypeError.
Proof.
  assert (Hwf : wf fresh_board) by (apply wfb_sound; vm_compute; reflexivity).
  assert (Hi : exists i, (i < List.length (hits (mkShip 0%nat [1%nat; 2%nat])))%nat /\
             ~ (0 <= cell_row (mkPos 0 14 false) i < 15)).
  { exists 1%nat. split; [simpl; lia|]. unfold cell_row, and_num; simpl; lia. }
  exact (conj (conj Hwf Hi) (placeShip_row_out_throws fresh_board (mkPos 0 14 false) (mkShip 0%nat [1%nat; 2%nat]) Hwf Hi)).
Defined.

Lemma maxIterations_N : N.of_nat maxIterations = 100000%N.
Proof. unfold maxIterations. rewrite Nat2N.inj_mul. reflexivity. Qed.

(** X9: a ship longer than 15 never fits, so [findValidPosition] runs all
    100000 iterations, consumes 300000 draws of [Math.random] and returns
    [null]. *)
Theorem findValidPosition_too_long (rnd : RandomSource) (ship : Ship) (st : State) :
  wf st -> (forall n, 0 <= rnd n < 2 ^ 53) -> 15 < ship_len ship ->
  findValidPosition rnd ship st = Ok (None, with_rng st (rng st + 300000)).
Proof.
  intros Hwf Hrnd Hlen.
  pose proof (findValidPosition_loop_spec rnd ship maxIterations st) as H.
  destruct (findValidPosition_ok rnd ship st Hwf Hrnd) as (o & st' & E).
  unfold findValidPosition in *. rewrite E in H |- *.
  destruct o as [p|].
  - exfalso. destruct H as (i & _ & -> & Hc & _).
    destruct (canPlace_true st _ ship Hwf Hc) as (H1 & H2 & _).
    unfold sample in H1, H2. simpl in H1, H2.
    pose proof (floor15_range (rnd (rng st + 3 * N.of_nat i)%N) (Hrnd _)).
    pose proof (floor15_range (rnd (rng st + 3 * N.of_nat i + 1)%N) (Hrnd _)).
    destruct (lt_half _); simpl in H1, H2; lia.
  - destruct H as [_ ->]. by rewrite maxIterations_N.
Qed.

Lemma findValidPosition_too_long_witness :
  (wf fresh_board /\ (forall n, 0 <= zero_rnd n < 2 ^ 53) /\ 15 < ship_len (mkShip 0%nat (seq 0 16))) /\
  findValidPosition zero_rnd (mkShip 0%nat (seq 0 16)) fresh_board =
    Ok (None, with_rng fresh_board (rng fresh_board + 300000)).
Proof.
  assert (Hwf : wf fresh_board) by (apply wfb_sound; vm_compute; reflexivity).
  assert (Hr : forall n, 0 <= zero_rnd n < 2 ^ 53) by (intros n; unfold zero_rnd; lia).
  assert (Hl : 15 < ship_len (mkShip 0%nat (seq 0 16))) by (unfold ship_len; cbn [hits]; rewrite length_seq; lia).
  exact (conj (conj Hwf (conj Hr Hl)) (findValidPosition_too_long zero_rnd (mkShip 0%nat (seq 0 16)) fresh_board Hwf Hr Hl)).
Defined.
